(** * SmartSpend (src/app.py): a shallow embedding of the storage, the
    authentication functions and the summary engine.

    Conventions of the embedding:
    - a Python [str] is a list of Unicode code points ([pystr]);
    - Python exceptions are the [Err] branch of [result];
    - SQLite REAL amounts are rationals [Q];
    - a calendar date is a year/month/day record; a [datetime] is a date
      plus the microseconds elapsed since midnight. *)

From Stdlib Require Import String Ascii.
From Stdlib Require Import ZArith List QArith Qround Qabs Bool Lia Lqa Permutation Sorted.
Import ListNotations.
Open Scope Z_scope.

(** ** Python values and exceptions *)

Inductive py_error :=
| AttributeError        (* method called on None *)
| UnicodeEncodeError    (* str.encode / sqlite3 binding of a lone surrogate *)
| IntegrityError        (* sqlite3.IntegrityError: UNIQUE / NOT NULL / CHECK *)
| OperationalError.     (* sqlite3.OperationalError: e.g. no such table *)

Inductive result (A : Type) :=
| Ok (a : A)
| Err (e : py_error).
Arguments Ok {A} a.
Arguments Err {A} e.

Definition rbind {A B} (m : result A) (k : A -> result B) : result B :=
  match m with Ok a => k a | Err e => Err e end.

Notation "x <- m ;; k" := (rbind m (fun x => k))
  (at level 61, m at next level, right associativity).

(** A Python [str]: its code points. *)
Definition pystr := list Z.

(** A Python value that is either a [str] or [None]. *)
Inductive pyval :=
| PyStr (s : pystr)
| PyNone.

Fixpoint pystr_eqb (a b : pystr) : bool :=
  match a, b with
  | [], [] => true
  | x :: a', y :: b' => Z.eqb x y && pystr_eqb a' b'
  | _, _ => false
  end.

(** Python's [<] on str: lexicographic on code points. *)
Fixpoint pystr_ltb (a b : pystr) : bool :=
  match a, b with
  | [], [] => false
  | [], _ :: _ => true
  | _ :: _, [] => false
  | x :: a', y :: b' => if Z.ltb x y then true else if Z.ltb y x then false else pystr_ltb a' b'
  end.

(** ** [str.encode()]: strict UTF-8; a lone surrogate raises. *)

Definition utf8_char (c : Z) : result (list Z) :=
  if Z.ltb c 0x80 then Ok [c]
  else if Z.ltb c 0x800 then
    Ok [Z.lor 0xC0 (Z.shiftr c 6); Z.lor 0x80 (Z.land c 0x3F)]
  else if (Z.leb 0xD800 c && Z.leb c 0xDFFF)%bool then Err UnicodeEncodeError
  else if Z.ltb c 0x10000 then
    Ok [Z.lor 0xE0 (Z.shiftr c 12); Z.lor 0x80 (Z.land (Z.shiftr c 6) 0x3F);
        Z.lor 0x80 (Z.land c 0x3F)]
  else
    Ok [Z.lor 0xF0 (Z.shiftr c 18); Z.lor 0x80 (Z.land (Z.shiftr c 12) 0x3F);
        Z.lor 0x80 (Z.land (Z.shiftr c 6) 0x3F); Z.lor 0x80 (Z.land c 0x3F)].

Fixpoint encode (s : pystr) : result (list Z) :=
  match s with
  | [] => Ok []
  | c :: s' => b <- utf8_char c ;; bs <- encode s' ;; Ok (b ++ bs)
  end.

(** ** SHA-256 (FIPS 180-4) on byte lists, as [hashlib.sha256]. *)
Module Sha256.

Definition mask32 : Z := 0xFFFFFFFF.
Definition add32 (x y : Z) : Z := (x + y) mod 2 ^ 32.
Definition rotr (n x : Z) : Z :=
  Z.lor (Z.shiftr x n) (Z.land (Z.shiftl x (32 - n)) mask32).

Definition ch (e f g : Z) : Z := Z.lxor (Z.land e f) (Z.land (Z.lxor e mask32) g).
Definition maj (a b c : Z) : Z :=
  Z.lxor (Z.lxor (Z.land a b) (Z.land a c)) (Z.land b c).
Definition bsig0 (a : Z) : Z := Z.lxor (Z.lxor (rotr 2 a) (rotr 13 a)) (rotr 22 a).
Definition bsig1 (e : Z) : Z := Z.lxor (Z.lxor (rotr 6 e) (rotr 11 e)) (rotr 25 e).
Definition ssig0 (x : Z) : Z := Z.lxor (Z.lxor (rotr 7 x) (rotr 18 x)) (Z.shiftr x 3).
Definition ssig1 (x : Z) : Z := Z.lxor (Z.lxor (rotr 17 x) (rotr 19 x)) (Z.shiftr x 10).

(** The first [n] primes, by trial division. *)
Definition is_prime (p : Z) : bool :=
  Z.leb 2 p && forallb (fun q => negb (Z.eqb (p mod q) 0))
                       (map Z.of_nat (seq 2 (Z.to_nat (Z.sqrt p) - 1))).

Fixpoint primes_from (fuel : nat) (p : Z) (n : nat) : list Z :=
  match fuel, n with
  | O, _ | _, O => []
  | S fuel', S n' =>
      if is_prime p then p :: primes_from fuel' (p + 1) n' else primes_from fuel' (p + 1) n
  end.

Definition first_primes (n : nat) : list Z := primes_from 400 2 n.

(** Integer cube root: the largest [x] with [x^3 <= v], bit by bit. *)
Fixpoint icbrt_bits (bit : nat) (x v : Z) : Z :=
  match bit with
  | O => x
  | S b =>
      let y := x + 2 ^ Z.of_nat b in
      icbrt_bits b (if Z.leb (y * y * y) v then y else x) v
  end.

(** Round constants: the first 32 bits of the fractional parts of the cube
    roots of the first 64 primes. *)
Definition K : list Z :=
  map (fun p => Z.land (icbrt_bits 40 0 (p * 2 ^ 96)) mask32) (first_primes 64).

(** The eight working / chaining variables. *)
Record st8 := mk8 { va : Z; vb : Z; vc : Z; vd : Z; ve : Z; vf : Z; vg : Z; vh : Z }.

(** Initial hash value: the first 32 bits of the fractional parts of the
    square roots of the first 8 primes. *)
Definition frac_sqrt (p : Z) : Z := Z.land (Z.sqrt (p * 2 ^ 64)) mask32.

Definition H0 : st8 :=
  mk8 (frac_sqrt 2) (frac_sqrt 3) (frac_sqrt 5) (frac_sqrt 7)
      (frac_sqrt 11) (frac_sqrt 13) (frac_sqrt 17) (frac_sqrt 19).

Example K_first_last :
  firstn 2 K = [1116352408; 1899447441] /\ nth 63 K 0 = 3329325298 /\ length K = 64%nat.
Proof. vm_compute. auto. Qed.

Example H0_first : va H0 = 1779033703 /\ vh H0 = 1541459225.
Proof. vm_compute. auto. Qed.

(** Padding: 0x80, zeros up to 56 mod 64, then the bit length on 8 bytes. *)
Definition be_bytes (n : nat) (x : Z) : list Z :=
  map (fun i => Z.land (Z.shiftr x (8 * Z.of_nat i)) 0xFF) (rev (seq 0 n)).

Definition pad (msg : list Z) : list Z :=
  let len := length msg in
  let zeros := ((119 - len mod 64) mod 64)%nat in
  msg ++ [0x80] ++ repeat 0 zeros ++ be_bytes 8 (8 * Z.of_nat len).

Fixpoint be_words (bs : list Z) : list Z :=
  match bs with
  | b0 :: b1 :: b2 :: b3 :: rest =>
      Z.lor (Z.shiftl b0 24) (Z.lor (Z.shiftl b1 16) (Z.lor (Z.shiftl b2 8) b3))
        :: be_words rest
  | _ => []
  end.

Fixpoint blocks (fuel : nat) (bs : list Z) : list (list Z) :=
  match fuel with
  | O => []
  | S fuel' =>
      match bs with
      | [] => []
      | _ => be_words (firstn 64 bs) :: blocks fuel' (skipn 64 bs)
      end
  end.

(** Message schedule: words 16..63 from the 16 words of a block. *)
Fixpoint schedule (n : nat) (w : list Z) : list Z :=
  match n with
  | O => w
  | S n' =>
      let t := length w in
      let wt := add32 (add32 (ssig1 (nth (t - 2) w 0)) (nth (t - 7) w 0))
                      (add32 (ssig0 (nth (t - 15) w 0)) (nth (t - 16) w 0)) in
      schedule n' (w ++ [wt])
  end.

Definition round (s : st8) (kw : Z * Z) : st8 :=
  let t1 := add32 (add32 (add32 (vh s) (bsig1 (ve s))) (add32 (ch (ve s) (vf s) (vg s)) (fst kw)))
                  (snd kw) in
  let t2 := add32 (bsig0 (va s)) (maj (va s) (vb s) (vc s)) in
  mk8 (add32 t1 t2) (va s) (vb s) (vc s) (add32 (vd s) t1) (ve s) (vf s) (vg s).

Definition compress (h : st8) (block : list Z) : st8 :=
  let s := fold_left round (combine K (schedule 48 block)) h in
  mk8 (add32 (va h) (va s)) (add32 (vb h) (vb s)) (add32 (vc h) (vc s)) (add32 (vd h) (vd s))
      (add32 (ve h) (ve s)) (add32 (vf h) (vf s)) (add32 (vg h) (vg s)) (add32 (vh h) (vh s)).

Definition digest (msg : list Z) : st8 :=
  let p := pad msg in
  fold_left compress (blocks (length p) p) H0.

(** [hexdigest()]: eight lower-case hex digits per word. *)
Definition hex_alphabet : pystr :=
  [48; 49; 50; 51; 52; 53; 54; 55; 56; 57; 97; 98; 99; 100; 101; 102].

Definition hex_char (n : Z) : Z := nth (Z.to_nat n) hex_alphabet 48.

Definition word_hex (w : Z) : pystr :=
  map (fun i => hex_char (Z.land (Z.shiftr w (4 * Z.of_nat i)) 15)) (rev (seq 0 8)).

Definition hexdigest (s : st8) : pystr :=
  concat (map word_hex [va s; vb s; vc s; vd s; ve s; vf s; vg s; vh s]).

End Sha256.

(** ** Authentication helpers (app.py: hash_password, verify_password) *)

Definition hash_password (password : pystr) : result pystr :=
  bytes <- encode password ;;
  Ok (Sha256.hexdigest (Sha256.digest bytes)).

Definition verify_password (password password_hash : pystr) : result bool :=
  h <- hash_password password ;;
  Ok (pystr_eqb h password_hash).

Definition ascii_pystr (s : String.string) : pystr :=
  map (fun c => Z.of_nat (Ascii.nat_of_ascii c)) (String.list_ascii_of_string s).

Example sha256_abc :
  hash_password (ascii_pystr "abc"%string) =
  Ok (ascii_pystr "ba7816bf8f01cfea414140de5dae2223b00361a396177a9cb410ff61f20015ad"%string).
Proof. vm_compute. reflexivity. Qed.

Example sha256_two_blocks :
  hash_password (ascii_pystr "abcdbcdecdefdefgefghfghighijhijkijkljklmklmnlmnomnopnopq") =
  Ok (ascii_pystr "248d6a61d20638b8e5c026930c3e6039a33ce45964ff2167f6ecedd419db06c1").
Proof. vm_compute. reflexivity. Qed.

(** ** Dates and datetimes *)

Record ymd := mkYMD { year : Z; month : Z; day : Z }.

(** Days since 1970-01-01 of a proleptic Gregorian date. *)
Definition days_from_civil (dt : ymd) : Z :=
  let y := if Z.leb (month dt) 2 then year dt - 1 else year dt in
  let era := y / 400 in
  let yoe := y - era * 400 in
  let mp := if Z.ltb 2 (month dt) then month dt - 3 else month dt + 9 in
  let doy := (153 * mp + 2) / 5 + day dt - 1 in
  let doe := yoe * 365 + yoe / 4 - yoe / 100 + doy in
  era * 146097 + doe - 719468.

Definition us_per_day : Z := 86400 * 1000000.

(** A [datetime]: a date and the microseconds since its midnight. *)
Record datetime := mkDT { dt_date : ymd; dt_us : Z }.

(** The instant of a datetime, in microseconds since the epoch. *)
Definition instant (t : datetime) : Z := days_from_civil (dt_date t) * us_per_day + dt_us t.

(** [pd.to_datetime] of an ISO date string: midnight of that date. *)
Definition date_instant (d : ymd) : Z := days_from_civil d * us_per_day.

(** [t - timedelta(days=n)], as an instant. *)
Definition minus_days (t : datetime) (n : Z) : Z := instant t - n * us_per_day.

(** [ORDER BY date DESC] on ISO-8601 date strings (4-digit years):
    the order of (year, month, day). *)
Definition date_leb (a b : ymd) : bool :=
  Z.ltb (year a) (year b)
  || (Z.eqb (year a) (year b)
      && (Z.ltb (month a) (month b)
          || (Z.eqb (month a) (month b) && Z.leb (day a) (day b)))).

(** ** The SQLite database file "expenses.db" *)

(** A row of [expenses]; [e_user_id] is [None] for SQL NULL. The
    informational [created_at] column is left out. *)
Record expense := mkExpense {
  e_id : Z;
  e_category : pystr;
  e_amount : Q;
  e_date : ymd;
  e_description : option pystr;
  e_user_id : option Z }.

(** The [expenses] table: whether it has the [user_id] column, whether
    its schema carries [CHECK(amount >= 0)], its rows and its
    AUTOINCREMENT counter (sqlite_sequence). *)
Record expenses_table := mkET {
  et_has_user_id : bool;
  et_check_amount : bool;
  et_rows : list expense;
  et_seq : Z }.

Record user := mkUser {
  u_id : Z;
  u_username : pystr;
  u_password_hash : pystr;
  u_email : option pystr }.

Record users_table := mkUT { ut_rows : list user; ut_seq : Z }.

(** [None] for a table that does not exist. *)
Record db := mkDB { db_expenses : option expenses_table; db_users : option users_table }.

(** SQL [=] between a nullable column and a bound parameter: NULL never
    compares equal. *)
Definition sql_eq (col : option Z) (param : option Z) : bool :=
  match col, param with
  | Some a, Some b => Z.eqb a b
  | _, _ => false
  end.

(** AUTOINCREMENT: one more than the largest of the counter and the
    largest id in use. *)
Definition next_id (seq : Z) (ids : list Z) : Z := fold_left Z.max ids seq + 1.

(** sqlite3 binds a [str] parameter through its UTF-8 encoding. *)
Definition bind_str (s : pystr) : result unit :=
  _ <- encode s ;; Ok tt.

Definition bind_opt_str (s : option pystr) : result unit :=
  match s with Some s => bind_str s | None => Ok tt end.

(** ** init_db *)

Definition fresh_expenses : expenses_table := mkET true true [] 0.

Definition set_null_owner_to_1 (r : expense) : expense :=
  match e_user_id r with
  | None => mkExpense (e_id r) (e_category r) (e_amount r) (e_date r) (e_description r) (Some 1)
  | Some _ => r
  end.

Definition init_db (d : db) : db :=
  (* CREATE TABLE expenses ... / ALTER TABLE expenses ADD COLUMN user_id *)
  let et :=
    match db_expenses d with
    | None => fresh_expenses
    | Some t =>
        if et_has_user_id t then t
        else mkET true (et_check_amount t)
                  (map (fun r => mkExpense (e_id r) (e_category r) (e_amount r) (e_date r)
                                           (e_description r) None) (et_rows t))
                  (et_seq t)
    end in
  (* CREATE TABLE IF NOT EXISTS users *)
  let ut := match db_users d with None => mkUT [] 0 | Some u => u end in
  (* UPDATE expenses SET user_id = 1 WHERE user_id IS NULL *)
  let et := mkET (et_has_user_id et) (et_check_amount et)
                 (map set_null_owner_to_1 (et_rows et)) (et_seq et) in
  mkDB (Some et) (Some ut).

(** ** create_user and authenticate_user *)

Definition find_user (rows : list user) (username : pystr) : option user :=
  find (fun u => pystr_eqb (u_username u) username) rows.

Definition create_user (d : db) (username password : pystr) (email : option pystr)
  : result (bool * db) :=
  password_hash <- hash_password password ;;
  match db_users d with
  | None => Err OperationalError
  | Some ut =>
      _ <- bind_str username ;; _ <- bind_str password_hash ;; _ <- bind_opt_str email ;;
      match find_user (ut_rows ut) username with
      | Some _ => (* sqlite3.IntegrityError: UNIQUE constraint failed *) Ok (false, d)
      | None =>
          let id := next_id (ut_seq ut) (map u_id (ut_rows ut)) in
          Ok (true, mkDB (db_expenses d)
                         (Some (mkUT (ut_rows ut ++ [mkUser id username password_hash email]) id)))
      end
  end.

Definition authenticate_user (d : db) (username password : pystr) : result (option Z) :=
  match db_users d with
  | None => Err OperationalError
  | Some ut =>
      _ <- bind_str username ;;
      match find_user (ut_rows ut) username with
      | None => Ok None
      | Some u =>
          ok <- verify_password password (u_password_hash u) ;;
          if ok then Ok (Some (u_id u)) else Ok None
      end
  end.

(** ** Expense store *)

(** [str.isspace()] code points, stripped by [str.strip()]. *)
Definition is_py_space (c : Z) : bool :=
  (Z.leb 9 c && Z.leb c 13) || (Z.leb 28 c && Z.leb c 32) || Z.eqb c 133 || Z.eqb c 160
  || Z.eqb c 5760 || (Z.leb 8192 c && Z.leb c 8202) || Z.eqb c 8232 || Z.eqb c 8233
  || Z.eqb c 8239 || Z.eqb c 8287 || Z.eqb c 12288.

Fixpoint lstrip (s : pystr) : pystr :=
  match s with
  | c :: s' => if is_py_space c then lstrip s' else s
  | [] => []
  end.

Definition strip (s : pystr) : pystr := rev (lstrip (rev (lstrip s))).

(** [v.strip()]: [None] has no attribute [strip]. *)
Definition py_strip (v : pyval) : result pystr :=
  match v with PyStr s => Ok (strip s) | PyNone => Err AttributeError end.

Definition expenses_with_user_id (d : db) : result expenses_table :=
  match db_expenses d with
  | Some t => if et_has_user_id t then Ok t else Err OperationalError
  | None => Err OperationalError
  end.

Definition add_expense (d : db) (category : pyval) (amount : Q) (expense_date : ymd)
  (description : pyval) (user_id : option Z) : result db :=
  cat <- py_strip category ;;
  desc <- py_strip description ;;
  t <- expenses_with_user_id d ;;
  _ <- bind_str cat ;; _ <- bind_str desc ;;
  if (et_check_amount t && negb (Qle_bool 0 amount))%bool then Err IntegrityError
  else
    let id := next_id (et_seq t) (map e_id (et_rows t)) in
    Ok (mkDB (Some (mkET (et_has_user_id t) (et_check_amount t)
                         (et_rows t ++ [mkExpense id cat amount expense_date (Some desc) user_id])
                         id))
             (db_users d)).

Definition owned_by (user_id : option Z) (r : expense) : bool := sql_eq (e_user_id r) user_id.

Definition delete_expense (d : db) (expense_id : Z) (user_id : option Z) : result (bool * db) :=
  t <- expenses_with_user_id d ;;
  let keep := filter (fun r => negb (Z.eqb (e_id r) expense_id && owned_by user_id r)) (et_rows t) in
  let rowcount := (length (et_rows t) - length keep)%nat in
  Ok (Nat.ltb 0 rowcount,
      mkDB (Some (mkET (et_has_user_id t) (et_check_amount t) keep (et_seq t))) (db_users d)).

(** [ORDER BY date DESC]: insertion sort, latest date first. SQLite
    leaves the order of rows with equal dates unspecified; this sort puts
    the later row first. *)
Fixpoint insert_desc (r : expense) (l : list expense) : list expense :=
  match l with
  | [] => [r]
  | x :: l' => if date_leb (e_date r) (e_date x) then x :: insert_desc r l' else r :: l
  end.

Fixpoint sort_date_desc (l : list expense) : list expense :=
  match l with
  | [] => []
  | r :: l' => insert_desc r (sort_date_desc l')
  end.

(** A failing query is caught and yields an empty DataFrame. *)
Definition get_current_user_expenses (d : db) (user_id : option Z) : list expense :=
  match expenses_with_user_id d with
  | Ok t => sort_date_desc (filter (owned_by user_id) (et_rows t))
  | Err _ => []
  end.

(** ** Summary engine (get_expense_summary) *)

Record summary := mkSummary {
  total_expenses : Q;
  average_expense : Q;
  expense_count : nat;
  top_category : pystr;
  largest_expense : Q;
  monthly_expenses : Q;
  last_30_days : Q;
  last_7_days : Q;
  daily_average : Q }.

(** [df['amount'].sum()] as an exact sum of rationals. pandas adds the
    float64 values with rounding (pairwise), so two different sums that
    agree here may differ in the program by a rounding error; the
    properties below that compare sums compare the same rows in the same
    order, or only use signs. *)
Definition sum_amount (df : list expense) : Q := fold_left Qplus (map e_amount df) 0%Q.

Definition qmax (a b : Q) : Q := if Qle_bool a b then b else a.

Definition max_amount (df : list expense) : Q :=
  match map e_amount df with
  | [] => 0%Q
  | a :: rest => fold_left qmax rest a
  end.

(** [df['category'].mode().iloc[0]]: the smallest of the most frequent
    categories. *)
Definition cat_count (cats : list pystr) (c : pystr) : nat :=
  length (filter (pystr_eqb c) cats).

Definition mode_first (cats : list pystr) : option pystr :=
  match cats with
  | [] => None
  | c0 :: rest =>
      Some (fold_left (fun best c =>
              let nc := cat_count cats c in
              let nb := cat_count cats best in
              if Nat.ltb nb nc || (Nat.eqb nc nb && pystr_ltb c best) then c else best)
            rest c0)
  end.

Definition get_expense_summary (d : db) (user_id : option Z) (now : datetime) : option summary :=
  let df := get_current_user_expenses d user_id in
  match df with
  | [] => None
  | _ =>
      let last30 := minus_days now 30 in
      let last7 := minus_days now 7 in
      let current_month :=
        filter (fun r => Z.eqb (month (e_date r)) (month (dt_date now))
                         && Z.eqb (year (e_date r)) (year (dt_date now))) df in
      let l30 := sum_amount (filter (fun r => Z.leb last30 (date_instant (e_date r))) df) in
      let l7 := sum_amount (filter (fun r => Z.leb last7 (date_instant (e_date r))) df) in
      Some (mkSummary
              (sum_amount df)
              (sum_amount df / inject_Z (Z.of_nat (length df)))
              (length df)
              (match mode_first (map e_category df) with
               | Some c => c
               | None => ascii_pystr "N/A"
               end)
              (max_amount df)
              (sum_amount current_month)
              l30
              l7
              (if Qeq_bool l30 0 then 0%Q else l30 / 30))
  end.

(** ** format_currency: [f"₹{amount:,.2f}"] *)

Definition is_digit (c : Z) : bool := Z.leb 48 c && Z.leb c 57.

(** Rounding to an integer, ties to even: Python's float formatting
    rounds the exact value of the float this way. *)
Definition round_half_even (q : Q) : Z :=
  let f := Qfloor q in
  match Qcompare (q - inject_Z f) (1 # 2) with
  | Lt => f
  | Gt => f + 1
  | Eq => if Z.even f then f else f + 1
  end.

(** The decimal digits of [n >= 0] as code points, least significant
    first; [fuel] bounds the number of digits. *)
Fixpoint digits_rev (fuel : nat) (n : Z) : pystr :=
  match fuel with
  | O => []
  | S f => (48 + n mod 10) :: (if Z.ltb n 10 then [] else digits_rev f (n / 10))
  end.

(** A number below [2 ^ k] has at most [k] decimal digits. *)
Definition digit_fuel (n : Z) : nat := Z.to_nat (Z.log2 n + 1).

(** The [,] option on digits given least significant first ([i] is the
    position of the head): a comma before every third digit from the
    right. The result is reversed as well. *)
Fixpoint group_rev (i : nat) (ds : pystr) : pystr :=
  match ds with
  | [] => []
  | d :: ds' =>
      (if Nat.eqb (i mod 3) 0 && Nat.ltb 0 i then [44; d] else [d]) ++ group_rev (S i) ds'
  end.

(** U+20B9, a minus sign for a negative amount, then the amount rounded to
    hundredths: the integer part with [,] separators, [.] and two digits.
    REAL amounts are rationals here, so there is no negative zero. *)
Definition format_currency (amount : Q) : pystr :=
  let cents := round_half_even (Qabs amount * 100) in
  let units := cents / 100 in
  let frac := cents mod 100 in
  [8377] ++ (if Qle_bool 0 amount then [] else [45])
  ++ rev (group_rev 0 (digits_rev (digit_fuel units) units))
  ++ [46; 48 + frac / 10; 48 + frac mod 10].

(** Reading a formatted amount back: the sign after the currency symbol,
    then the digits (separators skipped) as hundredths. *)
Definition read_step (acc c : Z) : Z := if is_digit c then acc * 10 + (c - 48) else acc.

Definition read_digits (s : pystr) : Z := fold_left read_step s 0.

Definition read_currency (s : pystr) : Q :=
  match s with
  | _ :: 45 :: body => - inject_Z (read_digits body) / 100
  | _ :: body => inject_Z (read_digits body) / 100
  | [] => 0
  end.

(** ** Chart data (the figures passed to plotly) *)

(** [Series.sum()] *)
Definition qsum (l : list Q) : Q := fold_left Qplus l 0%Q.

Section GroupBy.
Context {K : Type} (eqb ltb : K -> K -> bool).

Fixpoint dedup (ks : list K) : list K :=
  match ks with
  | [] => []
  | k :: ks' => if existsb (eqb k) ks' then dedup ks' else k :: dedup ks'
  end.

Fixpoint insert_asc (k : K) (ks : list K) : list K :=
  match ks with
  | [] => [k]
  | k' :: ks' => if ltb k' k then k' :: insert_asc k ks' else k :: ks
  end.

Definition sort_asc (ks : list K) : list K := fold_right insert_asc [] ks.

(** [df.groupby(key)]: the distinct keys in ascending order, and the rows
    of a group. *)
Definition group_keys (key : expense -> K) (df : list expense) : list K :=
  sort_asc (dedup (map key df)).

Definition group_rows (key : expense -> K) (df : list expense) (k : K) : list expense :=
  filter (fun r => eqb (key r) k) df.

End GroupBy.

(** [category_totals.sort_values('amount', ascending=...)]: an insertion
    sort on the totals (pandas' default quicksort leaves the order of
    equal totals unspecified). *)
Fixpoint insert_by_amount (descending : bool) (x : pystr * Q) (l : list (pystr * Q))
  : list (pystr * Q) :=
  match l with
  | [] => [x]
  | y :: l' =>
      if (if descending then Qle_bool (snd x) (snd y) else Qle_bool (snd y) (snd x))
      then y :: insert_by_amount descending x l'
      else x :: l
  end.

Definition sort_by_amount (descending : bool) (l : list (pystr * Q)) : list (pystr * Q) :=
  fold_right (insert_by_amount descending) [] l.

(** [df.groupby('category')['amount'].sum()] *)
Definition category_totals (df : list expense) : list (pystr * Q) :=
  map (fun c => (c, sum_amount (group_rows pystr_eqb e_category df c)))
      (group_keys pystr_eqb pystr_ltb e_category df).

(** The (category, total) rows of create_category_pie_chart, largest
    total first, and of create_category_bar_chart, smallest first; the
    hover text of each row is [format_currency] of its total. [None] for
    an empty frame. *)
Definition create_category_pie_chart (df : list expense) : option (list (pystr * Q)) :=
  match df with [] => None | _ => Some (sort_by_amount true (category_totals df)) end.

Definition create_category_bar_chart (df : list expense) : option (list (pystr * Q)) :=
  match df with [] => None | _ => Some (sort_by_amount false (category_totals df)) end.

(** [df['date'].dt.to_period('M')]: (year, month), in calendar order. *)
Definition month_key (r : expense) : Z * Z := (year (e_date r), month (e_date r)).

Definition month_eqb (a b : Z * Z) : bool := Z.eqb (fst a) (fst b) && Z.eqb (snd a) (snd b).

Definition month_ltb (a b : Z * Z) : bool :=
  Z.ltb (fst a) (fst b) || (Z.eqb (fst a) (fst b) && Z.ltb (snd a) (snd b)).

(** create_monthly_trend_chart: per month, ascending, the sum of the
    amounts and the count of ids. *)
Definition create_monthly_trend_chart (df : list expense) : option (list ((Z * Z) * Q * nat)) :=
  match df with
  | [] => None
  | _ =>
      Some (map (fun k => let g := group_rows month_eqb month_key df k in
                          (k, sum_amount g, length g))
                (group_keys month_eqb month_ltb month_key df))
  end.




(** [df.sort_values('date')]: ascending dates (rows with equal dates in
    an unspecified order; an insertion sort here). *)
Fixpoint insert_date_asc (r : expense) (l : list expense) : list expense :=
  match l with
  | [] => [r]
  | x :: l' => if date_leb (e_date x) (e_date r) then x :: insert_date_asc r l' else r :: l
  end.

Definition sort_date_asc (l : list expense) : list expense := fold_right insert_date_asc [] l.

(** [Series.cumsum()], exact; the program rounds each running sum. *)
Fixpoint cumsum_from (acc : Q) (l : list Q) : list Q :=
  match l with
  | [] => []
  | x :: l' => (acc + x)%Q :: cumsum_from (acc + x)%Q l'
  end.

(** create_spending_timeline: (date, amount, cumulative amount) in date
    order. *)
Definition create_spending_timeline (df : list expense) : option (list (ymd * Q * Q)) :=
  match df with
  | [] => None
  | _ =>
      let s := sort_date_asc df in
      Some (combine (combine (map e_date s) (map e_amount s)) (cumsum_from 0 (map e_amount s)))
  end.

(** ** Pages *)

(** The "Filter by" choice of show_view_all. *)
Inductive date_filter := AllTime | Last30Days | Last90Days | ThisMonth.

(** [datetime.now().replace(day=1)]: the first of the month, at the time
    of day of [now]. *)
Definition first_of_month (now : datetime) : datetime :=
  mkDT (mkYMD (year (dt_date now)) (month (dt_date now)) 1) (dt_us now).

Definition date_filter_keeps (f : date_filter) (now : datetime) (r : expense) : bool :=
  match f with
  | AllTime => true
  | Last30Days => Z.leb (minus_days now 30) (date_instant (e_date r))
  | Last90Days => Z.leb (minus_days now 90) (date_instant (e_date r))
  | ThisMonth => Z.leb (instant (first_of_month now)) (date_instant (e_date r))
  end.

(** The rows show_view_all keeps when its search box is empty, so that
    [if search_term:] skips the free-text search: the date filter, then
    the category filter; [None] is "All categories". A non-empty search
    ([str.contains] with a regular expression) is not modelled. *)
Definition view_all_filter (f : date_filter) (category_filter : option pystr) (now : datetime)
  (df : list expense) : list expense :=
  let df := filter (date_filter_keeps f now) df in
  match category_filter with
  | None => df
  | Some c => filter (fun r => pystr_eqb (e_category r) c) df
  end.

Definition nonempty (s : pystr) : bool := match s with [] => false | _ => true end.

Inductive add_msg := EnterCategory | EnterValidAmount | ErrorAdding (e : py_error) | ExpenseAdded.

(** Submitting the form of show_add_expense; an exception of
    [add_expense] is caught and shown. *)
Definition show_add_expense_submit (d : db) (category : pystr) (amount : Q) (expense_date : ymd)
  (description : pystr) (user_id : option Z) : add_msg * db :=
  if negb (nonempty (strip category)) then (EnterCategory, d)
  else if Qle_bool amount 0 then (EnterValidAmount, d)
  else match add_expense d (PyStr category) amount expense_date (PyStr description) user_id with
       | Ok d' => (ExpenseAdded, d')
       | Err e => (ErrorAdding e, d)
       end.

Inductive register_msg := FillRequired | PasswordsDiffer | PasswordTooShort | UsernameExists
                        | AccountCreated.

(** Submitting the form of show_register_form; [st.text_input] gives ""
    for an empty e-mail field, which is passed on as is. *)
Definition show_register_submit (d : db) (username email password confirm_password : pystr)
  : result (register_msg * db) :=
  if nonempty username && nonempty password then
    if pystr_eqb password confirm_password then
      if Nat.leb 6 (length password) then
        r <- create_user d username password (Some email) ;;
        Ok (if fst r then AccountCreated else UsernameExists, snd r)
      else Ok (PasswordTooShort, d)
    else Ok (PasswordsDiffer, d)
  else Ok (FillRequired, d).

Inductive login_msg := LoginFillFields | LoginInvalid | LoginSuccess (user_id : Z).

(** Submitting the form of show_login_form: [if user_id:] rejects a
    [None] and also an id of [0]. *)
Definition show_login_submit (d : db) (username password : pystr) : result login_msg :=
  if nonempty username && nonempty password then
    uid <- authenticate_user d username password ;;
    match uid with
    | Some i => if Z.eqb i 0 then Ok LoginInvalid else Ok (LoginSuccess i)
    | None => Ok LoginInvalid
    end
  else Ok LoginFillFields.

(** What a script run does to the database: [init_db()] at module level,
    then the submitted form; a raised exception leaves the database as
    it was. *)
Inductive ui_op :=
| UiRegister (username email password confirm_password : pystr)
| UiAddExpense (category : pystr) (amount : Q) (expense_date : ymd) (description : pystr)
               (user_id : option Z)
| UiDeleteExpense (expense_id : Z) (user_id : option Z).

Definition run_ui_op (d : db) (o : ui_op) : db :=
  let d := init_db d in
  match o with
  | UiRegister u e p c =>
      match show_register_submit d u e p c with Ok (_, d') => d' | Err _ => d end
  | UiAddExpense c a dt ds u => snd (show_add_expense_submit d c a dt ds u)
  | UiDeleteExpense i u => match delete_expense d i u with Ok (_, d') => d' | Err _ => d end
  end.

Definition run_ui (d : db) (ops : list ui_op) : db := fold_left run_ui_op ops d.

(** ** Concrete runs *)

Definition empty_db : db := mkDB None None.

Definition alice : pystr := ascii_pystr "alice".
Definition food : pystr := ascii_pystr "Food".
Definition d_2024_03_31 : ymd := mkYMD 2024 3 31.

Definition scenario : result (bool * bool * option Z * list expense) :=
  let d := init_db empty_db in
  r1 <- create_user d alice (ascii_pystr "secret1") None ;;
  let (ok1, d) := r1 in
  r2 <- create_user d alice (ascii_pystr "secret2") None ;;
  let (ok2, d) := r2 in
  uid <- authenticate_user d alice (ascii_pystr "secret1") ;;
  d <- add_expense d (PyStr food) (91 # 2) d_2024_03_31 (PyStr (ascii_pystr " lunch ")) uid ;;
  Ok (ok1, ok2, uid, get_current_user_expenses d uid).

Example scenario_run :
  scenario = Ok (true, false, Some 1,
                 [mkExpense 1 food (91 # 2) d_2024_03_31 (Some (ascii_pystr "lunch")) (Some 1)]).
Proof. vm_compute. reflexivity. Qed.

Example days_from_civil_epoch : days_from_civil (mkYMD 1970 1 1) = 0.
Proof. reflexivity. Qed.

Example days_from_civil_2000 : days_from_civil (mkYMD 2000 3 1) = 11017.
Proof. reflexivity. Qed.

(** ** General lemmas *)

Lemma insert_desc_perm : forall r l, Permutation (insert_desc r l) (r :: l).
Proof.
  intros r l; induction l as [|y l IH]; simpl.
  - reflexivity.
  - destruct (date_leb (e_date r) (e_date y)); [|reflexivity].
    rewrite IH. apply perm_swap.
Qed.

Lemma sort_date_desc_perm : forall l, Permutation (sort_date_desc l) l.
Proof.
  induction l as [|r l IH]; simpl; [constructor|].
  rewrite insert_desc_perm. constructor. exact IH.
Qed.

Lemma in_get_current_user_expenses : forall d u r,
  In r (get_current_user_expenses d u) ->
  exists t, expenses_with_user_id d = Ok t /\ In r (et_rows t) /\ owned_by u r = true.
Proof.
  unfold get_current_user_expenses; intros d u r H.
  destruct (expenses_with_user_id d) as [t|e]; [|contradiction].
  apply (Permutation_in _ (sort_date_desc_perm _)) in H.
  apply filter_In in H. exists t. tauto.
Qed.

Lemma filter_all_true {A} (f : A -> bool) (l : list A) :
  (forall x, In x l -> f x = true) -> filter f l = l.
Proof.
  induction l as [|x l IH]; intros H; simpl; [reflexivity|].
  rewrite (H x (or_introl eq_refl)), IH; [reflexivity|].
  intros y Hy; apply H; right; exact Hy.
Qed.

Lemma NoDup_map_inj {A B} (f : A -> B) (l : list A) x y :
  NoDup (map f l) -> In x l -> In y l -> f x = f y -> x = y.
Proof.
  induction l as [|a l IH]; simpl; intros Hnd Hx Hy Hf; [contradiction|].
  inversion Hnd as [|b m Hnotin Hnd' Heq]; subst.
  destruct Hx as [<-|Hx], Hy as [<-|Hy]; auto.
  - exfalso; apply Hnotin. rewrite Hf. apply in_map; exact Hy.
  - exfalso; apply Hnotin. rewrite <- Hf. apply in_map; exact Hx.
Qed.

Lemma expenses_with_user_id_ok : forall d t,
  expenses_with_user_id d = Ok t -> db_expenses d = Some t /\ et_has_user_id t = true.
Proof.
  unfold expenses_with_user_id; intros d t H.
  destruct (db_expenses d) as [t0|]; [|discriminate].
  destruct (et_has_user_id t0) eqn:E; inversion H; subst; auto.
Qed.

(** AUTOINCREMENT hands out an id larger than every id in use, so the
    primary key stays duplicate-free. *)
Lemma fold_max_ge : forall ids acc, acc <= fold_left Z.max ids acc.
Proof.
  induction ids as [|i ids IH]; simpl; intros acc; [lia|].
  specialize (IH (Z.max acc i)); lia.
Qed.

Lemma next_id_fresh : forall seq ids, ~ In (next_id seq ids) ids.
Proof.
  unfold next_id. intros seq ids.
  assert (Hge : forall i acc, In i ids -> i <= fold_left Z.max ids acc).
  { induction ids as [|j ids IH]; simpl; intros i acc Hi; [contradiction|].
    destruct Hi as [<-|Hi].
    - pose proof (fold_max_ge ids (Z.max acc j)); lia.
    - apply IH; exact Hi. }
  intros Hin. specialize (Hge _ seq Hin). lia.
Qed.

Lemma add_expense_ids_unique : forall d d' t t' cat amt dt desc uid,
  expenses_with_user_id d = Ok t -> NoDup (map e_id (et_rows t)) ->
  add_expense d cat amt dt desc uid = Ok d' -> db_expenses d' = Some t' ->
  NoDup (map e_id (et_rows t')).
Proof.
  unfold add_expense; intros d d' t t' cat amt dt desc uid Ht Hnd Hadd Ht'.
  destruct (py_strip cat) as [c|]; [|discriminate]; simpl in Hadd.
  destruct (py_strip desc) as [s|]; [|discriminate]; simpl in Hadd.
  rewrite Ht in Hadd; simpl in Hadd.
  destruct (bind_str c); [|discriminate]; simpl in Hadd.
  destruct (bind_str s); [|discriminate]; simpl in Hadd.
  destruct (et_check_amount t && negb (Qle_bool 0 amt))%bool; [discriminate|].
  inversion Hadd; subst; simpl in Ht'; inversion Ht'; subst; simpl.
  rewrite map_app; simpl.
  apply NoDup_app; [exact Hnd | constructor; [intros []| constructor] |].
  intros x Hx [<-|[]]. exact (next_id_fresh _ _ Hx).
Qed.

(** ** Claims *)

(** C1 (per-user isolation). For owners [A <> B] and an expense row of
    [B] in a table whose primary keys are distinct, [list_for(A)] does not
    return that row, and [delete_expense(id_of_row, A)] returns [False]
    and leaves the database, hence [B]'s row, unchanged. *)
Theorem per_user_isolation : forall d t A B r,
  expenses_with_user_id d = Ok t -> NoDup (map e_id (et_rows t)) -> A <> B ->
  In r (et_rows t) -> e_user_id r = Some B ->
  ~ In r (get_current_user_expenses d (Some A)) /\
  delete_expense d (e_id r) (Some A) = Ok (false, d).
Proof.
  intros d t A B r Ht Hnd Hab Hin Hown. split.
  - intros H. apply in_get_current_user_expenses in H as (t0 & _ & _ & Ho).
    unfold owned_by, sql_eq in Ho. rewrite Hown in Ho. apply Z.eqb_eq in Ho. congruence.
  - unfold delete_expense. rewrite Ht; simpl. rewrite filter_all_true.
    + rewrite Nat.sub_diag; simpl.
      destruct (expenses_with_user_id_ok _ _ Ht) as [Hd Hu].
      destruct d as [de du]; simpl in Hd; subst de.
      destruct t as [h c rows s]; simpl in *; subst h. reflexivity.
    + intros x Hx. destruct (Z.eqb (e_id x) (e_id r)) eqn:E; simpl; [|reflexivity].
      apply Z.eqb_eq in E. pose proof (NoDup_map_inj _ _ _ _ Hnd Hx Hin E) as ->.
      unfold owned_by, sql_eq. rewrite Hown.
      destruct (Z.eqb_spec B A); [congruence|reflexivity].
Qed.

Definition two_owner_db : db :=
  mkDB (Some (mkET true true
                [mkExpense 1 food 10 d_2024_03_31 (Some []) (Some 1);
                 mkExpense 2 food 20 d_2024_03_31 (Some []) (Some 2)] 2))
       (Some (mkUT [] 0)).

Lemma per_user_isolation_witness :
  ~ In (mkExpense 2 food 20 d_2024_03_31 (Some []) (Some 2))
       (get_current_user_expenses two_owner_db (Some 1)) /\
  delete_expense two_owner_db 2 (Some 1) = Ok (false, two_owner_db).
Proof.
  apply (per_user_isolation two_owner_db
           (mkET true true
              [mkExpense 1 food 10 d_2024_03_31 (Some []) (Some 1);
               mkExpense 2 food 20 d_2024_03_31 (Some []) (Some 2)] 2) 1 2).
  - reflexivity.
  - simpl. repeat constructor; simpl; intuition discriminate.
  - lia.
  - simpl. right. left. reflexivity.
  - reflexivity.
Defined.

(** C10. [add_expense] calls [.strip()] on the category and on the
    description: when either is [None] it raises [AttributeError] and
    inserts no row. *)
Theorem add_expense_none_raises : forall d category amount expense_date description user_id,
  add_expense d PyNone amount expense_date description user_id = Err AttributeError /\
  add_expense d category amount expense_date PyNone user_id = Err AttributeError.
Proof.
  intros d category amount expense_date description user_id. split; [reflexivity|].
  destruct category; reflexivity.
Qed.

(** C4. Whenever a summary exists, [daily_average] equals
    [last_30_days / 30]; when [last_30_days] is zero it is exactly [0]. *)
Theorem daily_average_is_last30_over_30 : forall d u now s,
  get_expense_summary d u now = Some s ->
  daily_average s == last_30_days s / 30 /\
  (last_30_days s == 0 -> daily_average s = 0%Q).
Proof.
  unfold get_expense_summary. intros d u now s.
  destruct (get_current_user_expenses d u) as [|r df]; [discriminate|].
  cbv zeta. intros H. injection H as <-. simpl.
  match goal with |- context [Qeq_bool ?l 0] => destruct (Qeq_bool l 0) eqn:E end.
  - apply Qeq_bool_iff in E. rewrite E. split; [reflexivity | intros _; reflexivity].
  - split; [reflexivity|]. intros H0. apply Qeq_bool_iff in H0. congruence.
Qed.

Definition noon_2024_03_31 : datetime := mkDT d_2024_03_31 (12 * 3600 * 1000000).

Lemma daily_average_is_last30_over_30_witness :
  exists s, get_expense_summary two_owner_db (Some 1) noon_2024_03_31 = Some s /\
    daily_average s == last_30_days s / 30 /\ (last_30_days s == 0 -> daily_average s = 0%Q).
Proof.
  eexists. split; [reflexivity|].
  apply (daily_average_is_last30_over_30 two_owner_db (Some 1) noon_2024_03_31).
  reflexivity.
Defined.

(** C7. [get_expense_summary] is [None] exactly when the owner's expense
    list is empty; for a single expense of amount 100 dated on the
    reference date, total, average and largest are 100, the count is 1
    and the current-month total is 100. *)
Theorem summary_absent_iff_empty_and_single : 
  (forall d u now, get_expense_summary d u now = None <-> get_current_user_expenses d u = []) /\
  (forall d u now r,
     get_current_user_expenses d u = [r] -> e_amount r == 100 -> e_date r = dt_date now ->
     exists s, get_expense_summary d u now = Some s /\
       total_expenses s == 100 /\ average_expense s == 100 /\ largest_expense s == 100 /\
       expense_count s = 1%nat /\ monthly_expenses s == 100).
Proof.
  split.
  - intros d u now. unfold get_expense_summary.
    destruct (get_current_user_expenses d u); split; intros H; (reflexivity || discriminate).
  - intros d u now r Hdf Hamt Hdate. unfold get_expense_summary. rewrite Hdf.
    eexists; split; [reflexivity|]. simpl.
    rewrite Hdate, !Z.eqb_refl. unfold sum_amount, max_amount; simpl.
    rewrite Hamt. repeat split; reflexivity.
Qed.

Definition one_row_db : db :=
  mkDB (Some (mkET true true [mkExpense 1 food 100 d_2024_03_31 (Some []) (Some 1)] 1))
       (Some (mkUT [] 0)).

Lemma summary_absent_iff_empty_and_single_witness :
  get_expense_summary one_row_db (Some 2) noon_2024_03_31 = None /\
  exists s, get_expense_summary one_row_db (Some 1) noon_2024_03_31 = Some s /\
    total_expenses s == 100 /\ average_expense s == 100 /\ largest_expense s == 100 /\
    expense_count s = 1%nat /\ monthly_expenses s == 100.
Proof.
  destruct summary_absent_iff_empty_and_single as [Hiff Hone]. split.
  - apply Hiff. reflexivity.
  - apply (Hone one_row_db (Some 1) noon_2024_03_31
             (mkExpense 1 food 100 d_2024_03_31 (Some []) (Some 1))); reflexivity.
Defined.

(** ** Schema migration *)

Lemma Forall2_map_r {A B} (R : A -> B -> Prop) (f : A -> B) (l : list A) :
  (forall x, R x (f x)) -> Forall2 R l (map f l).
Proof. intros H; induction l; simpl; constructor; auto. Qed.

Definition legacy_orphan_db : db :=
  mkDB (Some (mkET true false [mkExpense 1 food 10 d_2024_03_31 None None] 1)) None.

(** C2 (counterexample). A database with one ownerless expense and no
    user: after [init_db] the row is not deleted but owned by the id [1],
    and no user with id [1] exists. *)
Lemma init_db_orphan_not_deleted :
  db_expenses (init_db legacy_orphan_db) =
    Some (mkET true false [mkExpense 1 food 10 d_2024_03_31 None (Some 1)] 1) /\
  db_users (init_db legacy_orphan_db) = Some (mkUT [] 0).
Proof. split; reflexivity. Qed.

(** C2 (amended). [init_db] always leaves an [expenses] table with the
    owner column; it deletes no row and keeps every id; a row with an
    owner keeps it, and every row whose owner is NULL (every row of a
    table that lacked the column) gets the owner [1], whether or not a
    user [1] exists; so no row is left with a NULL owner. The users
    table is created empty if absent and otherwise left as it is. *)
Theorem init_db_assigns_orphans_to_1 : forall d, exists t,
  db_expenses (init_db d) = Some t /\ et_has_user_id t = true /\
  db_users (init_db d) = Some (match db_users d with Some ut => ut | None => mkUT [] 0 end) /\
  match db_expenses d with
  | None => et_rows t = []
  | Some t0 =>
      Forall2 (fun r0 r => e_id r = e_id r0 /\ e_amount r = e_amount r0 /\
                 e_user_id r = if et_has_user_id t0
                               then match e_user_id r0 with Some u => Some u | None => Some 1 end
                               else Some 1)
              (et_rows t0) (et_rows t)
  end /\
  (forall r, In r (et_rows t) -> e_user_id r <> None).
Proof.
  intros [[t0|] du]; unfold init_db; simpl.
  - destruct (et_has_user_id t0) eqn:Hu.
    + eexists; split; [reflexivity|]; simpl.
      split; [exact Hu|]. split; [reflexivity|]. split.
      * apply Forall2_map_r. intros [i c a dt ds [o|]]; simpl; auto.
      * intros r Hr. apply in_map_iff in Hr as ([i c a dt ds [o|]] & <- & _); simpl; discriminate.
    + eexists; split; [reflexivity|]; simpl.
      split; [reflexivity|]. split; [reflexivity|]. rewrite map_map. split.
      * apply Forall2_map_r. intros [i c a dt ds o]; simpl; auto.
      * intros r Hr. apply in_map_iff in Hr as (r0 & <- & _); simpl; discriminate.
  - eexists; split; [reflexivity|]; simpl. repeat split; intros r [].
Qed.

(** ** Trailing windows *)

(** Date-level reading of [df['date'] >= now - timedelta(days=n)]: a date
    passes when it is after [now]'s date minus [n] days, or equal to it
    and [now] is exactly midnight. *)
Definition in_trailing_window (n : Z) (now : datetime) (r : expense) : bool :=
  Z.ltb (days_from_civil (dt_date now) - n) (days_from_civil (e_date r))
  || (Z.eqb (days_from_civil (e_date r)) (days_from_civil (dt_date now) - n)
      && Z.eqb (dt_us now) 0).

Lemma window_timestamp_vs_date : forall n now r,
  0 <= dt_us now < us_per_day ->
  Z.leb (minus_days now n) (date_instant (e_date r)) = in_trailing_window n now r.
Proof.
  intros n now r Hus. unfold minus_days, instant, date_instant, in_trailing_window in *.
  unfold us_per_day in *.
  set (D := days_from_civil (dt_date now)) in *.
  set (E := days_from_civil (e_date r)) in *.
  set (us := dt_us now) in *.
  destruct (Z.ltb_spec (D - n) E) as [Hlt|Hge]; simpl.
  - apply Z.leb_le. nia.
  - destruct (Z.eqb_spec E (D - n)) as [Heq|Hne]; simpl.
    + rewrite Heq. destruct (Z.eqb_spec us 0) as [H0|H0].
      * apply Z.leb_le. lia.
      * apply Z.leb_gt. lia.
    + apply Z.leb_gt. assert (E <= D - n - 1) by lia. nia.
Qed.

Definition boundary_db : db :=
  mkDB (Some (mkET true true [mkExpense 1 food 100 (mkYMD 2024 3 1) (Some []) (Some 1)] 1))
       (Some (mkUT [] 0)).

(** C3 (counterexample). Reference instant 2024-03-31 12:00; the only
    expense, of amount 100, is dated 2024-03-01, exactly 30 days before
    the reference date. It is not counted: [last_30_days] is 0, not 100. *)
Lemma trailing_window_boundary_excluded :
  days_from_civil (mkYMD 2024 3 1) = days_from_civil (dt_date noon_2024_03_31) - 30 /\
  exists s, get_expense_summary boundary_db (Some 1) noon_2024_03_31 = Some s /\
    last_30_days s == 0 /\ ~ last_30_days s == 100.
Proof.
  split; [reflexivity|].
  eexists; split; [reflexivity|]. split; [reflexivity|]. discriminate.
Qed.

(** C3 (amended). The windows compare the midnight of each expense date
    with the full timestamp [now - n days]: [last_30_days] ([last_7_days])
    sums the expenses dated after the reference date minus 30 (7) days,
    future dates included, plus those dated exactly 30 (7) days before
    only when the reference instant is exactly midnight. *)
Theorem trailing_windows_timestamp : forall d u now s,
  0 <= dt_us now < us_per_day ->
  get_expense_summary d u now = Some s ->
  last_30_days s = sum_amount (filter (in_trailing_window 30 now) (get_current_user_expenses d u)) /\
  last_7_days s = sum_amount (filter (in_trailing_window 7 now) (get_current_user_expenses d u)).
Proof.
  intros d u now s Hus. unfold get_expense_summary.
  destruct (get_current_user_expenses d u) as [|r df]; [discriminate|].
  cbv zeta. intros H. injection H as <-. cbn [last_30_days last_7_days].
  split.
  - rewrite <- (filter_ext (fun x => Z.leb (minus_days now 30) (date_instant (e_date x))) _
                  (fun x => window_timestamp_vs_date 30 now x Hus)).
    reflexivity.
  - rewrite <- (filter_ext (fun x => Z.leb (minus_days now 7) (date_instant (e_date x))) _
                  (fun x => window_timestamp_vs_date 7 now x Hus)).
    reflexivity.
Qed.

Lemma trailing_windows_timestamp_witness :
  exists s, get_expense_summary boundary_db (Some 1) noon_2024_03_31 = Some s /\
  last_30_days s = sum_amount (filter (in_trailing_window 30 noon_2024_03_31)
                                 (get_current_user_expenses boundary_db (Some 1))) /\
  last_7_days s = sum_amount (filter (in_trailing_window 7 noon_2024_03_31)
                                (get_current_user_expenses boundary_db (Some 1))).
Proof.
  eexists; split; [reflexivity|].
  apply (trailing_windows_timestamp boundary_db (Some 1) noon_2024_03_31).
  - unfold noon_2024_03_31, us_per_day; simpl; lia.
  - reflexivity.
Defined.

(** ** Non-negative amounts *)

(** The storage operations the application issues; an operation that
    raises leaves the database as it was. *)
Inductive op :=
| OpInitDb
| OpCreateUser (username password : pystr) (email : option pystr)
| OpAddExpense (category : pyval) (amount : Q) (expense_date : ymd) (description : pyval)
               (user_id : option Z)
| OpDeleteExpense (expense_id : Z) (user_id : option Z).

Definition run_op (d : db) (o : op) : db :=
  match o with
  | OpInitDb => init_db d
  | OpCreateUser u p e => match create_user d u p e with Ok (_, d') => d' | Err _ => d end
  | OpAddExpense c a dt ds u => match add_expense d c a dt ds u with Ok d' => d' | Err _ => d end
  | OpDeleteExpense i u => match delete_expense d i u with Ok (_, d') => d' | Err _ => d end
  end.

Definition run_ops (d : db) (ops : list op) : db := fold_left run_op ops d.

Definition amounts_checked (d : db) : Prop :=
  forall t, db_expenses d = Some t ->
  et_check_amount t = true /\ forall r, In r (et_rows t) -> (0 <= e_amount r)%Q.

Lemma add_expense_checked_negative : forall d t c a dt ds u,
  db_expenses d = Some t -> et_check_amount t = true -> (a < 0)%Q ->
  forall d', add_expense d c a dt ds u <> Ok d'.
Proof.
  intros d t c a dt ds u Ht Hc Ha d'. unfold add_expense, expenses_with_user_id.
  destruct (py_strip c); [|discriminate]; simpl.
  destruct (py_strip ds); [|discriminate]; simpl.
  rewrite Ht. destruct (et_has_user_id t); [|discriminate]; simpl.
  destruct (bind_str a0); [|discriminate]; simpl.
  destruct (bind_str a1); [|discriminate]; simpl.
  rewrite Hc. destruct (Qle_bool 0 a) eqn:E; [|discriminate].
  apply Qle_bool_iff in E. exfalso. apply (Qlt_not_le a 0); assumption.
Qed.

Lemma run_op_amounts_checked : forall d o, amounts_checked d -> amounts_checked (run_op d o).
Proof.
  intros d o Hd. destruct o as [|u p e|c a dt ds u|i u]; simpl.
  - unfold init_db, amounts_checked; simpl. intros t Ht; injection Ht as <-; simpl.
    destruct (db_expenses d) as [t0|] eqn:E.
    + destruct (Hd t0 E) as [Hc Hr].
      destruct (et_has_user_id t0); simpl; split; try assumption; intros r Hin;
        apply in_map_iff in Hin as (r0 & <- & Hin).
      * destruct r0 as [i c a dt ds [o|]]; apply Hr in Hin; exact Hin.
      * rewrite in_map_iff in Hin. destruct Hin as (r1 & <- & Hin). apply Hr in Hin. exact Hin.
    + simpl. split; [reflexivity | intros r []].
  - destruct (create_user d u p e) as [[b d']|] eqn:E; [|exact Hd].
    unfold create_user in E. destruct (hash_password p); [|discriminate]; simpl in E.
    destruct (db_users d); [|discriminate].
    destruct (bind_str u); [|discriminate]; simpl in E.
    destruct (bind_str a); [|discriminate]; simpl in E.
    destruct (bind_opt_str e); [|discriminate]; simpl in E.
    destruct (find_user _ u); injection E as <- <-; [exact Hd|].
    intros t Ht; apply Hd; exact Ht.
  - destruct (add_expense d c a dt ds u) as [d'|] eqn:E; [|exact Hd].
    unfold add_expense in E.
    destruct (py_strip c) as [cs|]; [|discriminate]; simpl in E.
    destruct (py_strip ds) as [dss|]; [|discriminate]; simpl in E.
    destruct (expenses_with_user_id d) as [t|] eqn:Et; [|discriminate]; simpl in E.
    destruct (bind_str cs); [|discriminate]; simpl in E.
    destruct (bind_str dss); [|discriminate]; simpl in E.
    apply expenses_with_user_id_ok in Et as [Ht _].
    destruct (Hd t Ht) as [Hc Hr]. rewrite Hc in E; simpl in E.
    destruct (Qle_bool 0 a) eqn:Ha; simpl in E; [|discriminate].
    injection E as <-. intros t' Ht'; injection Ht' as <-; simpl. split; [reflexivity|].
    intros r Hin. apply in_app_or in Hin as [Hin|[<-|[]]]; [apply Hr; exact Hin|].
    simpl. apply Qle_bool_iff; exact Ha.
  - destruct (delete_expense d i u) as [[b d']|] eqn:E; [|exact Hd].
    unfold delete_expense in E.
    destruct (expenses_with_user_id d) as [t|] eqn:Et; [|discriminate]; simpl in E.
    apply expenses_with_user_id_ok in Et as [Ht _].
    destruct (Hd t Ht) as [Hc Hr].
    injection E as _ <-. intros t' Ht'; injection Ht' as <-; simpl. split; [exact Hc|].
    intros r Hin. apply filter_In in Hin as [Hin _]. apply Hr; exact Hin.
Qed.

Lemma run_ops_amounts_checked : forall ops d, amounts_checked d -> amounts_checked (run_ops d ops).
Proof.
  induction ops as [|o ops IH]; simpl; intros d Hd; [exact Hd|].
  apply IH, run_op_amounts_checked, Hd.
Qed.

Definition legacy_unchecked_db : db := mkDB (Some (mkET false false [] 0)) None.

(** C9 (counterexample). An [expenses] table that predates the owner
    column and has no [CHECK(amount >= 0)]: [init_db] only adds the
    column, and an insert of amount -5 then succeeds and stores the row. *)
Lemma negative_amount_in_legacy_table :
  add_expense (init_db legacy_unchecked_db) (PyStr food) (-5)%Q d_2024_03_31 (PyStr []) (Some 1) =
  Ok (mkDB (Some (mkET true false [mkExpense 1 food (-5)%Q d_2024_03_31 (Some []) (Some 1)] 1))
           (Some (mkUT [] 0))).
Proof. vm_compute. reflexivity. Qed.

(** C9 (amended). Starting from a fresh database file (no tables), along
    any sequence of operations the [expenses] table carries
    [CHECK(amount >= 0)] and every stored amount is [>= 0], and every
    insert with a negative amount fails (no row is inserted). *)
Theorem nonneg_amounts_from_fresh_db : forall ops,
  amounts_checked (run_ops empty_db ops) /\
  forall c a dt ds u, (a < 0)%Q -> forall d', add_expense (run_ops empty_db ops) c a dt ds u <> Ok d'.
Proof.
  intros ops.
  assert (H : amounts_checked (run_ops empty_db ops)).
  { apply run_ops_amounts_checked. intros t Ht; discriminate. }
  split; [exact H|].
  intros c a dt ds u Ha d'.
  destruct (db_expenses (run_ops empty_db ops)) as [t|] eqn:Ht.
  - apply (add_expense_checked_negative _ t); [exact Ht | apply (H t Ht) | exact Ha].
  - unfold add_expense, expenses_with_user_id. rewrite Ht.
    destruct (py_strip c); [|discriminate]; simpl.
    destruct (py_strip ds); discriminate.
Qed.

Lemma nonneg_amounts_from_fresh_db_witness :
  (-5 < 0)%Q /\
  exists e, add_expense (run_ops empty_db [OpInitDb]) (PyStr food) (-5)%Q d_2024_03_31
                        (PyStr []) (Some 1) = Err e.
Proof.
  split; [reflexivity|].
  destruct (add_expense (run_ops empty_db [OpInitDb]) (PyStr food) (-5)%Q d_2024_03_31
                        (PyStr []) (Some 1)) as [d'|e] eqn:E.
  - exfalso. apply (proj2 (nonneg_amounts_from_fresh_db [OpInitDb]) (PyStr food) (-5)%Q
                      d_2024_03_31 (PyStr []) (Some 1) ltac:(reflexivity) d' E).
  - exists e. reflexivity.
Defined.

(** ** Strings and digests *)

Lemma pystr_eqb_eq : forall a b, pystr_eqb a b = true <-> a = b.
Proof.
  induction a as [|x a IH]; intros [|y b]; simpl; try (split; congruence).
  rewrite andb_true_iff, Z.eqb_eq, IH. split; [intros [-> ->]; reflexivity | intros H; injection H; auto].
Qed.

Lemma pystr_eqb_refl : forall a, pystr_eqb a a = true.
Proof. intros a; apply pystr_eqb_eq; reflexivity. Qed.

Lemma encode_ascii : forall s, (forall c, In c s -> 0 <= c < 128) -> encode s = Ok s.
Proof.
  induction s as [|c s IH]; simpl; intros H; [reflexivity|].
  unfold utf8_char. destruct (H c (or_introl eq_refl)) as [H0 H1].
  replace (Z.ltb c 0x80) with true by (symmetry; apply Z.ltb_lt; lia). simpl.
  rewrite IH; [reflexivity|]. intros d Hd; apply H; right; exact Hd.
Qed.

Lemma word_hex_length : forall w, length (Sha256.word_hex w) = 8%nat.
Proof. intros w; unfold Sha256.word_hex; rewrite length_map; reflexivity. Qed.

Lemma hexdigest_length : forall s, length (Sha256.hexdigest s) = 64%nat.
Proof.
  intros s; unfold Sha256.hexdigest; cbn [map concat].
  rewrite !length_app, !word_hex_length. reflexivity.
Qed.

Lemma hexdigest_alphabet : forall s c, In c (Sha256.hexdigest s) -> In c Sha256.hex_alphabet.
Proof.
  intros s c Hc. unfold Sha256.hexdigest in Hc.
  apply in_concat in Hc as (w & Hw & Hc). apply in_map_iff in Hw as (x & <- & _).
  unfold Sha256.word_hex in Hc. apply in_map_iff in Hc as (i & <- & _).
  unfold Sha256.hex_char.
  destruct (nth_in_or_default (Z.to_nat (Z.land (Z.shiftr x (4 * Z.of_nat i)) 15))
              Sha256.hex_alphabet 48) as [H|H]; [exact H|].
  rewrite H. simpl; auto.
Qed.

Lemma hexdigest_encode : forall s, encode (Sha256.hexdigest s) = Ok (Sha256.hexdigest s).
Proof.
  intros s. apply encode_ascii. intros c Hc. apply hexdigest_alphabet in Hc.
  simpl in Hc. intuition lia.
Qed.

Lemma hash_password_shape : forall x hx, hash_password x = Ok hx ->
  length hx = 64%nat /\ (forall c, In c hx -> In c Sha256.hex_alphabet) /\ encode hx = Ok hx.
Proof.
  unfold hash_password. intros x hx H.
  destruct (encode x); [|discriminate]. simpl in H. injection H as <-.
  split; [apply hexdigest_length|]. split; [apply hexdigest_alphabet | apply hexdigest_encode].
Qed.

(** All strings of length [n] over an alphabet. *)
Fixpoint words (n : nat) (alpha : list Z) : list pystr :=
  match n with
  | O => [[]]
  | S n' => flat_map (fun c => map (cons c) (words n' alpha)) alpha
  end.

Lemma flat_map_cons_length : forall (alpha : list Z) (L : list pystr),
  length (flat_map (fun c => map (cons c) L) alpha) = (length alpha * length L)%nat.
Proof.
  induction alpha as [|c alpha IH]; intros L; simpl; [reflexivity|].
  rewrite length_app, length_map, IH. reflexivity.
Qed.

Lemma words_length : forall n alpha, length (words n alpha) = (length alpha ^ n)%nat.
Proof.
  induction n as [|n IH]; intros alpha; simpl; [reflexivity|].
  rewrite flat_map_cons_length, IH. reflexivity.
Qed.

Lemma words_complete : forall n alpha w,
  length w = n -> (forall c, In c w -> In c alpha) -> In w (words n alpha).
Proof.
  induction n as [|n IH]; intros alpha w Hlen Hin.
  - destruct w; [left; reflexivity | discriminate].
  - destruct w as [|c w]; [discriminate|]. simpl. apply in_flat_map.
    exists c. split; [apply Hin; left; reflexivity|].
    apply in_map. apply IH; [simpl in Hlen; lia|]. intros d Hd; apply Hin; right; exact Hd.
Qed.

Lemma NoDup_map_injective {A B} (f : A -> B) (l : list A) :
  (forall x y, f x = f y -> x = y) -> NoDup l -> NoDup (map f l).
Proof.
  intros Hinj Hnd; induction Hnd as [|x l Hx Hnd IH]; simpl; constructor; [|exact IH].
  intros Hin. apply in_map_iff in Hin as (y & Hy & Hyl). apply Hinj in Hy; subst; contradiction.
Qed.

Lemma hash_password_repeat_a : forall i,
  hash_password (repeat 97 i) = Ok (Sha256.hexdigest (Sha256.digest (repeat 97 i))).
Proof.
  intros i. unfold hash_password. rewrite encode_ascii; [reflexivity|].
  intros c Hc. apply repeat_spec in Hc. lia.
Qed.

Lemma utf8_char_ok : forall c, ~ (0xD800 <= c <= 0xDFFF) -> exists b, utf8_char c = Ok b.
Proof.
  intros c H. unfold utf8_char.
  destruct (Z.ltb c 0x80); [eexists; reflexivity|].
  destruct (Z.ltb c 0x800); [eexists; reflexivity|].
  destruct (Z.leb 0xD800 c && Z.leb c 0xDFFF)%bool eqn:E.
  - exfalso. apply andb_true_iff in E as [E1 E2]. apply Z.leb_le in E1, E2. lia.
  - destruct (Z.ltb c 0x10000); eexists; reflexivity.
Qed.

Lemma utf8_char_surrogate : forall c, 0xD800 <= c <= 0xDFFF -> utf8_char c = Err UnicodeEncodeError.
Proof.
  intros c H. unfold utf8_char.
  replace (Z.ltb c 0x80) with false by (symmetry; apply Z.ltb_ge; lia).
  replace (Z.ltb c 0x800) with false by (symmetry; apply Z.ltb_ge; lia).
  replace (Z.leb 0xD800 c && Z.leb c 0xDFFF)%bool with true
    by (symmetry; apply andb_true_iff; split; apply Z.leb_le; lia).
  reflexivity.
Qed.

Lemma utf8_char_err : forall c e, utf8_char c = Err e -> e = UnicodeEncodeError.
Proof.
  intros c e H. unfold utf8_char in H.
  destruct (Z.ltb c 0x80), (Z.ltb c 0x800), (Z.leb 0xD800 c && Z.leb c 0xDFFF)%bool,
    (Z.ltb c 0x10000); congruence.
Qed.

Lemma encode_ok : forall s, (forall c, In c s -> ~ (0xD800 <= c <= 0xDFFF)) ->
  exists bs, encode s = Ok bs.
Proof.
  induction s as [|c s IH]; intros H; [eexists; reflexivity|].
  cbn [encode]. destruct (utf8_char_ok c (H c (or_introl eq_refl))) as [b ->].
  destruct IH as [bs ->]; [intros d Hd; apply H; right; exact Hd|].
  eexists. reflexivity.
Qed.

Lemma encode_surrogate : forall s, (exists c, In c s /\ 0xD800 <= c <= 0xDFFF) ->
  encode s = Err UnicodeEncodeError.
Proof.
  induction s as [|c s IH]; intros (d & Hd & Hs); [contradiction|].
  cbn [encode]. destruct Hd as [<-|Hd].
  - rewrite utf8_char_surrogate by exact Hs. reflexivity.
  - destruct (utf8_char c) as [b|e] eqn:Hc; cbn [rbind].
    + rewrite IH by (exists d; split; assumption). reflexivity.
    + rewrite (utf8_char_err _ _ Hc). reflexivity.
Qed.

(** C8 (counterexample). [hash_password] raises on a lone surrogate, and
    [verify_password(y, hash_password(x))] is not [False] for all
    [x <> y]: the strings "", "a", "aa", ... (16^64 + 1 of them) have
    digests among the 16^64 strings of 64 hex digits, so two collide. *)
Lemma hash_password_not_injective :
  hash_password [0xD800] = Err UnicodeEncodeError /\
  ~ (forall x y hx, hash_password x = Ok hx -> x <> y -> verify_password y hx = Ok false).
Proof.
  split; [reflexivity|]. intros P.
  set (g := fun i => Sha256.hexdigest (Sha256.digest (repeat 97 i))).
  assert (Hinj : forall i j, g i = g j -> i = j).
  { intros i j Hg. destruct (Nat.eq_dec i j) as [|Hne]; [assumption|exfalso].
    assert (Hxy : repeat 97 i <> repeat 97 j).
    { intros E. apply Hne. rewrite <- (repeat_length 97 i), <- (repeat_length 97 j), E.
      reflexivity. }
    specialize (P _ _ _ (hash_password_repeat_a i) Hxy).
    unfold verify_password in P. rewrite hash_password_repeat_a in P. cbn [rbind] in P.
    change (Ok (pystr_eqb (g j) (g i)) = Ok false) in P.
    rewrite Hg, pystr_eqb_refl in P. discriminate. }
  remember (length Sha256.hex_alphabet ^ 64)%nat as N eqn:HN.
  assert (Hnd : NoDup (map g (seq 0 (S N)))).
  { apply NoDup_map_injective; [exact Hinj | apply seq_NoDup]. }
  assert (Hincl : incl (map g (seq 0 (S N))) (words 64 Sha256.hex_alphabet)).
  { intros w Hw. apply in_map_iff in Hw as (i & <- & _).
    apply words_complete; [apply hexdigest_length | apply hexdigest_alphabet]. }
  pose proof (NoDup_incl_length Hnd Hincl) as Hlen.
  rewrite length_map, length_seq, words_length, <- HN in Hlen. lia.
Qed.

(** C8 (amended). For every string [x] without a lone surrogate,
    [hash_password(x)] returns a digest of 64 characters, each one of
    the lowercase hex digits "0123456789abcdef";
    [verify_password(x, hash_password(x))] is [True]; and
    [verify_password(y, hash_password(x))] is [True] exactly when
    [hash_password(y)] is that same digest. For every string with a lone
    surrogate, [hash_password] raises [UnicodeEncodeError]. *)
Theorem hash_verify_roundtrip :
  (forall x, (forall c, In c x -> ~ (0xD800 <= c <= 0xDFFF)) ->
   exists hx, hash_password x = Ok hx /\ length hx = 64%nat /\
     (forall c, In c hx -> In c (ascii_pystr "0123456789abcdef")) /\
     verify_password x hx = Ok true /\
     (forall y, verify_password y hx = Ok true <-> hash_password y = Ok hx)) /\
  (forall x, (exists c, In c x /\ 0xD800 <= c <= 0xDFFF) ->
   hash_password x = Err UnicodeEncodeError).
Proof.
  split.
  - intros x Hx. destruct (encode_ok x Hx) as [bs Hbs].
    assert (H : exists hx, hash_password x = Ok hx)
      by (eexists; unfold hash_password; rewrite Hbs; reflexivity).
    destruct H as [hx H]. exists hx.
    destruct (hash_password_shape x hx H) as (Hlen & Halpha & _).
    split; [exact H|]. split; [exact Hlen|]. split.
    { intros c Hc. apply Halpha in Hc. exact Hc. }
    split.
    + unfold verify_password. rewrite H. cbn [rbind]. rewrite pystr_eqb_refl. reflexivity.
    + intros y. unfold verify_password. destruct (hash_password y) as [hy|e]; cbn [rbind].
      * split; intros E.
        -- injection E as E. apply pystr_eqb_eq in E. subst; reflexivity.
        -- injection E as ->. rewrite pystr_eqb_refl. reflexivity.
      * split; discriminate.
  - intros x Hx. unfold hash_password. rewrite encode_surrogate by exact Hx. reflexivity.
Qed.

Definition secret1 : pystr := ascii_pystr "secret1".

Lemma hash_verify_roundtrip_witness :
  (exists hx, hash_password secret1 = Ok hx /\ length hx = 64%nat /\
     (forall c, In c hx -> In c (ascii_pystr "0123456789abcdef")) /\
     verify_password secret1 hx = Ok true /\
     (forall y, verify_password y hx = Ok true <-> hash_password y = Ok hx)) /\
  hash_password [97; 0xD800; 98] = Err UnicodeEncodeError.
Proof.
  split.
  - apply (proj1 hash_verify_roundtrip secret1).
    intros c Hc. vm_compute in Hc. repeat destruct Hc as [<-|Hc]; try contradiction; lia.
  - apply (proj2 hash_verify_roundtrip [97; 0xD800; 98]).
    exists 0xD800. split; [right; left; reflexivity | lia].
Defined.

(** ** Authentication and registration *)

Definition secret1_hash : pystr :=
  match hash_password secret1 with Ok h => h | Err _ => [] end.

Definition real_user : pystr := ascii_pystr "real_user".
Definition ghost : pystr := ascii_pystr "ghost".

Definition real_user_db : db :=
  mkDB None (Some (mkUT [mkUser 1 real_user secret1_hash None] 1)).

Example authenticate_real_user : authenticate_user real_user_db real_user secret1 = Ok (Some 1).
Proof. vm_compute. reflexivity. Qed.

(** C5 (counterexample). A password with a lone surrogate: for an unknown
    username [authenticate_user] returns [None], for an existing username
    it raises [UnicodeEncodeError] while hashing the password. *)
Lemma authenticate_surrogate_password :
  authenticate_user real_user_db ghost [0xD800] = Ok None /\
  authenticate_user real_user_db real_user [0xD800] = Err UnicodeEncodeError.
Proof. split; vm_compute; reflexivity. Qed.

(** C5 (amended). With the users table in place and UTF-8 encodable
    usernames, an unknown username and an existing username with a wrong
    (encodable) password both yield [None]. *)
Theorem authenticate_failures_indistinguishable : forall d ut ghost real usr p1 p2 h2,
  db_users d = Some ut ->
  (exists b, encode ghost = Ok b) -> find_user (ut_rows ut) ghost = None ->
  (exists b, encode real = Ok b) -> find_user (ut_rows ut) real = Some usr ->
  hash_password p2 = Ok h2 -> h2 <> u_password_hash usr ->
  authenticate_user d ghost p1 = Ok None /\ authenticate_user d real p2 = Ok None.
Proof.
  intros d ut gh re usr p1 p2 h2 Hd [bg Hg] Hfg [br Hr] Hfr Hh Hne.
  unfold authenticate_user, bind_str. rewrite Hd, Hg, Hr. cbn [rbind].
  rewrite Hfg, Hfr. split; [reflexivity|].
  unfold verify_password. rewrite Hh. cbn [rbind].
  destruct (pystr_eqb h2 (u_password_hash usr)) eqn:E; [|reflexivity].
  apply pystr_eqb_eq in E. contradiction.
Qed.

Definition wrong_password : pystr := ascii_pystr "wrong_password".
Definition wrong_password_hash : pystr :=
  match hash_password wrong_password with Ok h => h | Err _ => [] end.

Lemma authenticate_failures_indistinguishable_witness :
  authenticate_user real_user_db ghost (ascii_pystr "anything") = Ok None /\
  authenticate_user real_user_db real_user wrong_password = Ok None.
Proof.
  apply (authenticate_failures_indistinguishable real_user_db
           (mkUT [mkUser 1 real_user secret1_hash None] 1) ghost real_user
           (mkUser 1 real_user secret1_hash None) (ascii_pystr "anything") wrong_password
           wrong_password_hash).
  - reflexivity.
  - eexists; reflexivity.
  - reflexivity.
  - eexists; reflexivity.
  - reflexivity.
  - vm_compute. reflexivity.
  - intros E. simpl in E.
    assert (Hb : pystr_eqb wrong_password_hash secret1_hash = true)
      by (rewrite E; apply pystr_eqb_refl).
    vm_compute in Hb. discriminate Hb.
Defined.

(** C6 (counterexample). Registering an existing username with a
    password holding a lone surrogate raises [UnicodeEncodeError] (the
    hash is computed inside the [try], which only catches
    [IntegrityError]). *)
Lemma create_user_duplicate_surrogate_raises :
  create_user real_user_db real_user [0xD800] None = Err UnicodeEncodeError.
Proof. vm_compute. reflexivity. Qed.

(** C6 (amended). With UTF-8 encodable username, password and email,
    registering a username already in the users table returns [False]
    without raising and leaves the database unchanged. *)
Theorem create_user_duplicate_false : forall d ut username password email usr,
  db_users d = Some ut -> find_user (ut_rows ut) username = Some usr ->
  (exists h, hash_password password = Ok h) -> (exists b, encode username = Ok b) ->
  (forall e, email = Some e -> exists b, encode e = Ok b) ->
  create_user d username password email = Ok (false, d).
Proof.
  intros d ut username password email usr Hd Hf [h Hh] [b Hb] He.
  unfold create_user. rewrite Hh. cbn [rbind]. rewrite Hd.
  unfold bind_str at 1. rewrite Hb. cbn [rbind].
  unfold bind_str. destruct (hash_password_shape _ _ Hh) as (_ & _ & Hench).
  rewrite Hench. cbn [rbind].
  destruct email as [e|].
  - destruct (He e eq_refl) as [be Hbe]. unfold bind_opt_str, bind_str. rewrite Hbe.
    cbn [rbind]. rewrite Hf. reflexivity.
  - cbn [bind_opt_str rbind]. rewrite Hf. reflexivity.
Qed.

Lemma create_user_duplicate_false_witness :
  create_user real_user_db real_user (ascii_pystr "secret2") None = Ok (false, real_user_db).
Proof.
  apply (create_user_duplicate_false real_user_db
           (mkUT [mkUser 1 real_user secret1_hash None] 1) real_user (ascii_pystr "secret2") None
           (mkUser 1 real_user secret1_hash None)).
  - reflexivity.
  - reflexivity.
  - eexists; vm_compute; reflexivity.
  - eexists; reflexivity.
  - intros e He; discriminate He.
Defined.

(** * Further properties of the store *)

Lemma expenses_with_user_id_some : forall t x,
  et_has_user_id t = true -> expenses_with_user_id (mkDB (Some t) x) = Ok t.
Proof. intros t x H. unfold expenses_with_user_id; simpl. rewrite H. reflexivity. Qed.

Lemma add_expense_ok_inv : forall d c a dt ds u d',
  add_expense d c a dt ds u = Ok d' ->
  exists t cs dss, py_strip c = Ok cs /\ py_strip ds = Ok dss /\
    expenses_with_user_id d = Ok t /\
    (et_check_amount t = false \/ Qle_bool 0 a = true) /\
    d' = mkDB (Some (mkET (et_has_user_id t) (et_check_amount t)
                    (et_rows t ++ [mkExpense (next_id (et_seq t) (map e_id (et_rows t)))
                                             cs a dt (Some dss) u])
                    (next_id (et_seq t) (map e_id (et_rows t)))))
              (db_users d).
Proof.
  unfold add_expense. intros d c a dt ds u d' H.
  destruct (py_strip c) as [cs|]; [|discriminate]; cbn [rbind] in H.
  destruct (py_strip ds) as [dss|]; [|discriminate]; cbn [rbind] in H.
  destruct (expenses_with_user_id d) as [t|]; [|discriminate]; cbn [rbind] in H.
  destruct (bind_str cs); [|discriminate]; cbn [rbind] in H.
  destruct (bind_str dss); [|discriminate]; cbn [rbind] in H.
  exists t, cs, dss. repeat split; try reflexivity.
  - destruct (et_check_amount t), (Qle_bool 0 a); simpl in H; try discriminate; auto.
  - destruct (et_check_amount t && negb (Qle_bool 0 a))%bool; [discriminate|].
    injection H as <-. reflexivity.
Qed.

(** X1. A successful [add_expense] for owner [u] adds exactly one row to
    [u]'s listing: the new row, with a fresh id and with the category and
    description stripped of surrounding whitespace. *)
Theorem add_then_list : forall d c a dt s u d',
  add_expense d (PyStr c) a dt (PyStr s) (Some u) = Ok d' ->
  exists id, (forall t, expenses_with_user_id d = Ok t -> ~ In id (map e_id (et_rows t))) /\
    Permutation (get_current_user_expenses d' (Some u))
                (mkExpense id (strip c) a dt (Some (strip s)) (Some u)
                   :: get_current_user_expenses d (Some u)).
Proof.
  intros d c a dt s u d' H.
  destruct (add_expense_ok_inv _ _ _ _ _ _ _ H) as (t & cs & dss & Hc & Hs & Ht & _ & ->).
  injection Hc as <-. injection Hs as <-.
  exists (next_id (et_seq t) (map e_id (et_rows t))). split.
  - intros t' Ht'. rewrite Ht in Ht'. injection Ht' as <-. apply next_id_fresh.
  - destruct (expenses_with_user_id_ok _ _ Ht) as [_ Hu].
    unfold get_current_user_expenses. rewrite Ht.
    rewrite expenses_with_user_id_some by (simpl; exact Hu). cbn [et_rows].
    rewrite sort_date_desc_perm, sort_date_desc_perm, filter_app. cbn [filter].
    unfold owned_by at 2. cbn [e_user_id sql_eq]. rewrite Z.eqb_refl.
    symmetry. apply Permutation_cons_append.
Qed.

Lemma add_then_list_witness :
  exists id, (forall t, expenses_with_user_id one_row_db = Ok t -> ~ In id (map e_id (et_rows t))) /\
    Permutation (get_current_user_expenses
                   (mkDB (Some (mkET true true
                            [mkExpense 1 food 100 d_2024_03_31 (Some []) (Some 1);
                             mkExpense 2 food 5 d_2024_03_31 (Some (ascii_pystr "tea")) (Some 1)] 2))
                         (Some (mkUT [] 0))) (Some 1))
                (mkExpense id (strip food) 5 d_2024_03_31 (Some (strip (ascii_pystr " tea"))) (Some 1)
                   :: get_current_user_expenses one_row_db (Some 1)).
Proof.
  apply (add_then_list one_row_db food 5 d_2024_03_31 (ascii_pystr " tea") 1).
  vm_compute. reflexivity.
Defined.

(** X2. No implicit deduplication: two successful [add_expense] calls
    with identical arguments append two rows that agree on every field
    but the id, and their ids differ. *)
Theorem add_twice_distinct_rows : forall d c a dt ds u d1 d2 t,
  expenses_with_user_id d = Ok t ->
  add_expense d c a dt ds u = Ok d1 -> add_expense d1 c a dt ds u = Ok d2 ->
  exists t2 r1 r2, db_expenses d2 = Some t2 /\ et_rows t2 = et_rows t ++ [r1; r2] /\
    e_id r1 <> e_id r2 /\ e_category r1 = e_category r2 /\ e_amount r1 = e_amount r2 /\
    e_date r1 = e_date r2 /\ e_description r1 = e_description r2 /\ e_user_id r1 = e_user_id r2.
Proof.
  intros d c a dt ds u d1 d2 t Ht H1 H2.
  destruct (add_expense_ok_inv _ _ _ _ _ _ _ H1) as (t1 & cs & dss & Hc & Hs & Ht1 & _ & ->).
  rewrite Ht in Ht1. injection Ht1 as <-.
  destruct (add_expense_ok_inv _ _ _ _ _ _ _ H2) as (t2 & cs' & dss' & Hc' & Hs' & Ht2 & _ & ->).
  rewrite Hc in Hc'. injection Hc' as <-. rewrite Hs in Hs'. injection Hs' as <-.
  destruct (expenses_with_user_id_ok _ _ Ht) as [_ Hu].
  unfold expenses_with_user_id in Ht2. simpl in Ht2. rewrite Hu in Ht2. injection Ht2 as <-.
  simpl. eexists _, _, _. split; [reflexivity|]. split; [rewrite <- app_assoc; reflexivity|].
  repeat split; try reflexivity.
  intros E. apply (next_id_fresh (next_id (et_seq t) (map e_id (et_rows t)))
                     (map e_id (et_rows t ++ [mkExpense (next_id (et_seq t) (map e_id (et_rows t)))
                                              cs a dt (Some dss) u]))).
  simpl in E. rewrite <- E. rewrite map_app. apply in_or_app. right. left. reflexivity.
Qed.

Lemma add_twice_distinct_rows_witness :
  exists t2 r1 r2, db_expenses
    (mkDB (Some (mkET true true
       [mkExpense 1 food 100 d_2024_03_31 (Some []) (Some 1);
        mkExpense 2 food 5 d_2024_03_31 (Some []) (Some 1);
        mkExpense 3 food 5 d_2024_03_31 (Some []) (Some 1)] 3)) (Some (mkUT [] 0))) = Some t2 /\
    et_rows t2 = [mkExpense 1 food 100 d_2024_03_31 (Some []) (Some 1)] ++ [r1; r2] /\
    e_id r1 <> e_id r2 /\ e_category r1 = e_category r2 /\ e_amount r1 = e_amount r2 /\
    e_date r1 = e_date r2 /\ e_description r1 = e_description r2 /\ e_user_id r1 = e_user_id r2.
Proof.
  apply (add_twice_distinct_rows one_row_db (PyStr food) 5 d_2024_03_31 (PyStr []) (Some 1)
           (mkDB (Some (mkET true true
              [mkExpense 1 food 100 d_2024_03_31 (Some []) (Some 1);
               mkExpense 2 food 5 d_2024_03_31 (Some []) (Some 1)] 2)) (Some (mkUT [] 0)))
           _ (mkET true true [mkExpense 1 food 100 d_2024_03_31 (Some []) (Some 1)] 1));
    vm_compute; reflexivity.
Defined.

Lemma filter_filter_and {A} (f g : A -> bool) (l : list A) :
  filter f (filter g l) = filter (fun x => g x && f x) l.
Proof.
  induction l as [|x l IH]; simpl; [reflexivity|].
  destruct (g x); simpl; [destruct (f x); simpl|]; rewrite IH; reflexivity.
Qed.

Lemma filter_length_lt {A} (f : A -> bool) (l : list A) x :
  In x l -> f x = false -> (length (filter f l) < length l)%nat.
Proof.
  induction l as [|y l IH]; simpl; intros Hin Hf; [contradiction|].
  pose proof (filter_length_le f l) as Hle.
  destruct Hin as [<-|Hin].
  - rewrite Hf. lia.
  - specialize (IH Hin Hf). destruct (f y); simpl; lia.
Qed.

(** X3. Deleting is idempotent in effect: after a [delete_expense] call,
    the same call again returns [False] and changes nothing. *)
Theorem delete_expense_idempotent : forall d i u b d',
  delete_expense d i u = Ok (b, d') -> delete_expense d' i u = Ok (false, d').
Proof.
  unfold delete_expense. intros d i u b d' H.
  destruct (expenses_with_user_id d) as [t|] eqn:Ht; [|discriminate]. cbn [rbind] in H.
  injection H as _ <-.
  destruct (expenses_with_user_id_ok _ _ Ht) as [_ Hu].
  rewrite expenses_with_user_id_some by (simpl; exact Hu). cbn [rbind et_rows].
  rewrite filter_filter_and.
  rewrite (filter_ext (fun x => _ && _)
             (fun r => negb (Z.eqb (e_id r) i && owned_by u r))) by
    (intros x; destruct (negb (Z.eqb (e_id x) i && owned_by u x)); reflexivity).
  rewrite Nat.sub_diag. reflexivity.
Qed.

Lemma delete_expense_idempotent_witness :
  delete_expense (mkDB (Some (mkET true true
                     [mkExpense 2 food 20 d_2024_03_31 (Some []) (Some 2)] 2)) (Some (mkUT [] 0)))
                 1 (Some 1) =
  Ok (false, mkDB (Some (mkET true true
                     [mkExpense 2 food 20 d_2024_03_31 (Some []) (Some 2)] 2)) (Some (mkUT [] 0))).
Proof.
  apply (delete_expense_idempotent two_owner_db 1 (Some 1) true). reflexivity.
Defined.

Lemma perm_in_iff {A} (l l' : list A) (x : A) :
  Permutation l l' -> In x l <-> In x l'.
Proof.
  intros P. split; [apply Permutation_in, P | apply Permutation_in, Permutation_sym, P].
Qed.

(** X4. Deleting one of the owner's listed expenses (ids being distinct)
    returns [True], removes exactly that row from the owner's listing,
    and leaves every other owner's listing unchanged. *)
Theorem delete_listed_expense : forall d t u r,
  expenses_with_user_id d = Ok t -> NoDup (map e_id (et_rows t)) ->
  In r (get_current_user_expenses d (Some u)) ->
  exists d', delete_expense d (e_id r) (Some u) = Ok (true, d') /\
    (forall x, In x (get_current_user_expenses d' (Some u)) <->
               In x (get_current_user_expenses d (Some u)) /\ x <> r) /\
    (forall v, v <> u -> get_current_user_expenses d' (Some v) = get_current_user_expenses d (Some v)).
Proof.
  intros d t u r Ht Hnd Hr.
  destruct (in_get_current_user_expenses _ _ _ Hr) as (t0 & Ht0 & Hin & Ho).
  rewrite Ht in Ht0. injection Ht0 as <-.
  destruct (expenses_with_user_id_ok _ _ Ht) as [_ Hu].
  set (p := fun x => negb (Z.eqb (e_id x) (e_id r) && owned_by (Some u) x)).
  eexists. split.
  - unfold delete_expense. rewrite Ht. cbn [rbind]. fold p.
    assert (Hlt : (length (filter p (et_rows t)) < length (et_rows t))%nat).
    { apply (filter_length_lt _ _ r Hin). unfold p. rewrite Z.eqb_refl, Ho. reflexivity. }
    replace (Nat.ltb 0 (length (et_rows t) - length (filter p (et_rows t)))) with true
      by (symmetry; apply Nat.ltb_lt; lia).
    reflexivity.
  - unfold get_current_user_expenses. rewrite Ht.
    rewrite expenses_with_user_id_some by (simpl; exact Hu). cbn [et_rows]. split.
    + intros x. rewrite (perm_in_iff _ _ x (sort_date_desc_perm _)).
      rewrite (perm_in_iff _ _ x (sort_date_desc_perm _)).
      rewrite filter_filter_and, !filter_In. unfold p. split.
      * intros [Hx Hpx]. apply andb_true_iff in Hpx as [Hpx Hox].
        split; [split; assumption|]. intros ->. rewrite Z.eqb_refl, Ho in Hpx. discriminate.
      * intros [[Hx Hox] Hne]. split; [exact Hx|]. rewrite Hox, andb_true_r.
        destruct (Z.eqb_spec (e_id x) (e_id r)) as [E|E]; [|reflexivity].
        exfalso. apply Hne. exact (NoDup_map_inj _ _ _ _ Hnd Hx Hin E).
    + intros v Hv. f_equal. rewrite filter_filter_and. apply filter_ext_in.
      intros x Hx. destruct (owned_by (Some v) x) eqn:Hov; [|apply andb_false_r].
      rewrite andb_true_r. unfold p. unfold owned_by, sql_eq in Hov |- *.
      destruct (e_user_id x) as [w|]; [|discriminate].
      apply Z.eqb_eq in Hov. subst w. destruct (Z.eqb_spec v u); [congruence|].
      rewrite andb_false_r. reflexivity.
Qed.

Lemma delete_listed_expense_witness :
  exists d', delete_expense two_owner_db 1 (Some 1) = Ok (true, d') /\
    (forall x, In x (get_current_user_expenses d' (Some 1)) <->
               In x (get_current_user_expenses two_owner_db (Some 1)) /\
               x <> mkExpense 1 food 10 d_2024_03_31 (Some []) (Some 1)) /\
    (forall v, v <> 1 -> get_current_user_expenses d' (Some v) =
                         get_current_user_expenses two_owner_db (Some v)).
Proof.
  apply (delete_listed_expense two_owner_db
           (mkET true true
              [mkExpense 1 food 10 d_2024_03_31 (Some []) (Some 1);
               mkExpense 2 food 20 d_2024_03_31 (Some []) (Some 2)] 2) 1
           (mkExpense 1 food 10 d_2024_03_31 (Some []) (Some 1))).
  - reflexivity.
  - simpl. repeat constructor; simpl; intuition discriminate.
  - simpl. left. reflexivity.
Defined.

(** ** Order of the listing *)

(** [a] may precede [b] in a listing ordered by [date DESC]. *)
Definition date_desc (a b : expense) : Prop := date_leb (e_date b) (e_date a) = true.

Lemma date_leb_total : forall a b, date_leb a b = false -> date_leb b a = true.
Proof.
  intros [ya ma da] [yb mb db]. unfold date_leb; cbn [year month day]. intros H.
  destruct (Z.ltb_spec ya yb); [discriminate|]. cbn [orb] in H.
  destruct (Z.eqb_spec ya yb) as [->|Ne].
  - rewrite Z.ltb_irrefl, Z.eqb_refl. cbn [orb andb]. cbn [andb] in H.
    destruct (Z.ltb_spec ma mb); [discriminate|]. cbn [orb] in H.
    destruct (Z.eqb_spec ma mb) as [->|Nm].
    + rewrite Z.ltb_irrefl, Z.eqb_refl. cbn [orb andb]. cbn [andb] in H.
      apply Z.leb_gt in H. apply Z.leb_le. lia.
    + assert (Hm : mb < ma) by lia. apply Z.ltb_lt in Hm. rewrite Hm. reflexivity.
  - assert (Hy : yb < ya) by lia. apply Z.ltb_lt in Hy. rewrite Hy. reflexivity.
Qed.

Lemma insert_desc_hd : forall x r l,
  date_desc x r -> HdRel date_desc x l -> HdRel date_desc x (insert_desc r l).
Proof.
  intros x r [|y l] H1 H2; simpl; [constructor; exact H1|].
  destruct (date_leb (e_date r) (e_date y)); constructor; [inversion H2; assumption | exact H1].
Qed.

Lemma insert_desc_sorted : forall r l, Sorted date_desc l -> Sorted date_desc (insert_desc r l).
Proof.
  intros r l; induction l as [|x l IH]; simpl; intros Hs; [repeat constructor|].
  inversion Hs as [|? ? Hs' Hhd]; subst.
  destruct (date_leb (e_date r) (e_date x)) eqn:E.
  - constructor; [apply IH, Hs'|]. apply insert_desc_hd; assumption.
  - constructor; [exact Hs|]. constructor. unfold date_desc. apply date_leb_total, E.
Qed.

Lemma sort_date_desc_sorted : forall l, Sorted date_desc (sort_date_desc l).
Proof.
  induction l as [|r l IH]; simpl; [constructor|]. apply insert_desc_sorted, IH.
Qed.

(** X5. The listing of [get_current_user_expenses] is ordered by date,
    latest first, and holds exactly the rows of the table owned by the
    given user (when the query succeeds). *)
Theorem listing_sorted_and_complete : forall d u,
  Sorted date_desc (get_current_user_expenses d u) /\
  forall t, expenses_with_user_id d = Ok t ->
  forall r, In r (get_current_user_expenses d u) <-> In r (et_rows t) /\ owned_by u r = true.
Proof.
  intros d u. unfold get_current_user_expenses.
  destruct (expenses_with_user_id d) as [t|e]; split.
  - apply sort_date_desc_sorted.
  - intros t' Ht r. injection Ht as <-.
    rewrite (perm_in_iff _ _ r (sort_date_desc_perm _)). apply filter_In.
  - constructor.
  - intros t' Ht. discriminate.
Qed.

(** ** A NULL user id *)

Lemma filter_owned_by_none : forall l, filter (owned_by None) l = [].
Proof.
  induction l as [|r l IH]; simpl; [reflexivity|].
  unfold owned_by at 1, sql_eq at 1. destruct (e_user_id r); exact IH.
Qed.

(** X6. With [user_id = None] (bound as SQL NULL, and [user_id = NULL]
    never holds) the listing is empty, and [delete_expense] either fails
    because the table lacks the owner column or returns [False] and leaves
    the database as it was. *)
Theorem null_user_id_sees_and_deletes_nothing : forall d i,
  get_current_user_expenses d None = [] /\
  (delete_expense d i None = Ok (false, d) \/ delete_expense d i None = Err OperationalError).
Proof.
  intros d i. unfold get_current_user_expenses, delete_expense.
  destruct (expenses_with_user_id d) as [t|e] eqn:Ht.
  - rewrite filter_owned_by_none. split; [reflexivity|]. left. cbn [rbind].
    rewrite filter_all_true.
    + rewrite Nat.sub_diag.
      destruct (expenses_with_user_id_ok _ _ Ht) as [Hd Hu].
      destruct d as [de du]; simpl in Hd; subst de.
      destruct t as [h c rows s]; simpl in *; subst h. reflexivity.
    + intros x _. unfold owned_by, sql_eq. destruct (e_user_id x); rewrite andb_false_r; reflexivity.
  - split; [reflexivity|]. right. cbn [rbind].
    unfold expenses_with_user_id in Ht.
    destruct (db_expenses d) as [t|]; [destruct (et_has_user_id t)|]; congruence.
Qed.

(** ** Re-running init_db *)

Lemma set_null_owner_to_1_idem : forall r,
  set_null_owner_to_1 (set_null_owner_to_1 r) = set_null_owner_to_1 r.
Proof. intros [i c a dt ds [o|]]; reflexivity. Qed.

Lemma map_set_null_owner_to_1_idem : forall l,
  map set_null_owner_to_1 (map set_null_owner_to_1 l) = map set_null_owner_to_1 l.
Proof.
  intros l. rewrite map_map. apply map_ext. apply set_null_owner_to_1_idem.
Qed.

(** X7. [init_db] is idempotent: running it on a database it has already
    initialised changes nothing (the app calls it on every run). *)
Theorem init_db_idempotent : forall d, init_db (init_db d) = init_db d.
Proof.
  intros [[[h c rows s]|] [u|]]; unfold init_db; cbn [db_expenses db_users et_has_user_id
    et_check_amount et_rows et_seq fresh_expenses];
    try destruct h; cbn [et_has_user_id et_check_amount et_rows et_seq];
    rewrite ?map_set_null_owner_to_1_idem; reflexivity.
Qed.

(** ** Registration and login *)

Lemma find_app {A} (f : A -> bool) (l1 l2 : list A) :
  find f (l1 ++ l2) = match find f l1 with Some x => Some x | None => find f l2 end.
Proof.
  induction l1 as [|x l1 IH]; simpl; [reflexivity|]. destruct (f x); [reflexivity|exact IH].
Qed.

(** X8. Registration then login: when [create_user] returns [True], the
    users table existed, and [authenticate_user] with the same username
    and password returns the id given to the new row, an id no earlier
    user has. *)
Theorem register_then_login : forall d n p e d',
  create_user d n p e = Ok (true, d') ->
  exists ut, db_users d = Some ut /\
    authenticate_user d' n p = Ok (Some (next_id (ut_seq ut) (map u_id (ut_rows ut)))) /\
    ~ In (next_id (ut_seq ut) (map u_id (ut_rows ut))) (map u_id (ut_rows ut)).
Proof.
  unfold create_user. intros d n p e d' H.
  destruct (hash_password p) as [h|] eqn:Hh; [|discriminate]. cbn [rbind] in H.
  destruct (db_users d) as [ut|]; [|discriminate].
  destruct (bind_str n) as [[]|] eqn:Hn; [|discriminate]. cbn [rbind] in H.
  destruct (bind_str h); [|discriminate]. cbn [rbind] in H.
  destruct (bind_opt_str e); [|discriminate]. cbn [rbind] in H.
  destruct (find_user (ut_rows ut) n) eqn:Hf; [discriminate|].
  injection H as <-. exists ut. split; [reflexivity|]. split; [|apply next_id_fresh].
  unfold authenticate_user. cbn [db_users ut_rows]. rewrite Hn. cbn [rbind].
  unfold find_user. rewrite find_app. unfold find_user in Hf. rewrite Hf.
  cbn [find u_username u_password_hash u_id]. rewrite pystr_eqb_refl.
  unfold verify_password. rewrite Hh. cbn [rbind]. rewrite pystr_eqb_refl. reflexivity.
Qed.

Definition alice_db : db :=
  mkDB (Some fresh_expenses) (Some (mkUT [mkUser 1 alice secret1_hash None] 1)).

Lemma register_then_login_witness :
  exists ut, db_users (init_db empty_db) = Some ut /\
    authenticate_user alice_db alice secret1 = Ok (Some (next_id (ut_seq ut) (map u_id (ut_rows ut)))) /\
    ~ In (next_id (ut_seq ut) (map u_id (ut_rows ut))) (map u_id (ut_rows ut)).
Proof.
  apply (register_then_login (init_db empty_db) alice secret1 None alice_db).
  vm_compute. reflexivity.
Defined.

(** X9. [create_user] never touches the expenses table and never changes
    or removes an existing user: it appends at most one row, exactly when
    it returns [True], and keeps usernames unique. *)
Theorem create_user_frame : forall d n p e b d',
  create_user d n p e = Ok (b, d') ->
  db_expenses d' = db_expenses d /\
  exists ut ut' new, db_users d = Some ut /\ db_users d' = Some ut' /\
    ut_rows ut' = ut_rows ut ++ new /\ (length new <= 1)%nat /\
    (b = true <-> new <> []) /\
    (NoDup (map u_username (ut_rows ut)) -> NoDup (map u_username (ut_rows ut'))).
Proof.
  unfold create_user. intros d n p e b d' H.
  destruct (hash_password p) as [h|]; [|discriminate]. cbn [rbind] in H.
  destruct (db_users d) as [ut|] eqn:Hu; [|discriminate].
  destruct (bind_str n); [|discriminate]. cbn [rbind] in H.
  destruct (bind_str h); [|discriminate]. cbn [rbind] in H.
  destruct (bind_opt_str e); [|discriminate]. cbn [rbind] in H.
  destruct (find_user (ut_rows ut) n) eqn:Hf; injection H as <- <-.
  - split; [reflexivity|]. exists ut, ut, []. rewrite app_nil_r.
    split; [reflexivity|]. split; [exact Hu|]. split; [reflexivity|]. split; [simpl; lia|].
    split; [|intros Hnd; exact Hnd]. split; [discriminate | intros Hne; contradiction].
  - split; [reflexivity|].
    eexists ut, _, [_]. split; [reflexivity|]. split; [reflexivity|].
    cbn [ut_rows]. split; [reflexivity|]. split; [simpl; lia|].
    split; [split; [discriminate | reflexivity]|].
    intros Hnd. rewrite map_app. cbn [map u_username].
    apply (Permutation_NoDup (Permutation_cons_append _ _)). constructor; [|exact Hnd].
    intros Hin. apply in_map_iff in Hin as (u & Hun & Hin).
    unfold find_user in Hf. pose proof (find_none _ _ Hf u Hin) as Hne.
    cbv beta in Hne. rewrite Hun, pystr_eqb_refl in Hne. discriminate.
Qed.

Lemma create_user_frame_witness :
  db_expenses alice_db = db_expenses (init_db empty_db) /\
  exists ut ut' new, db_users (init_db empty_db) = Some ut /\ db_users alice_db = Some ut' /\
    ut_rows ut' = ut_rows ut ++ new /\ (length new <= 1)%nat /\
    (true = true <-> new <> []) /\
    (NoDup (map u_username (ut_rows ut)) -> NoDup (map u_username (ut_rows ut'))).
Proof.
  apply (create_user_frame (init_db empty_db) alice secret1 None true alice_db).
  vm_compute. reflexivity.
Defined.

(** X10. When [authenticate_user] returns an id, the users table holds a
    row with that id and the given username whose stored hash is the
    SHA-256 hex digest of the given password. *)
Theorem authenticate_some_sound : forall d n p i,
  authenticate_user d n p = Ok (Some i) ->
  exists ut u, db_users d = Some ut /\ In u (ut_rows ut) /\ u_username u = n /\
    u_id u = i /\ hash_password p = Ok (u_password_hash u).
Proof.
  unfold authenticate_user. intros d n p i H.
  destruct (db_users d) as [ut|]; [|discriminate].
  destruct (bind_str n); [|discriminate]. cbn [rbind] in H.
  destruct (find_user (ut_rows ut) n) as [u|] eqn:Hf; [|discriminate].
  unfold verify_password in H.
  destruct (hash_password p) as [h|] eqn:Hh; [|discriminate]. cbn [rbind] in H.
  destruct (pystr_eqb h (u_password_hash u)) eqn:E; [|discriminate].
  injection H as <-. apply pystr_eqb_eq in E. subst h.
  unfold find_user in Hf. apply find_some in Hf as [Hin Hn]. apply pystr_eqb_eq in Hn.
  exists ut, u. repeat split; assumption.
Qed.

Lemma authenticate_some_sound_witness :
  exists ut u, db_users real_user_db = Some ut /\ In u (ut_rows ut) /\ u_username u = real_user /\
    u_id u = 1 /\ hash_password secret1 = Ok (u_password_hash u).
Proof.
  apply (authenticate_some_sound real_user_db real_user secret1 1). vm_compute. reflexivity.
Defined.

(** ** Summary statistics *)

Section SummaryStats.
Local Open Scope Q_scope.

Lemma summary_fields : forall d u now s, get_expense_summary d u now = Some s ->
  exists df, get_current_user_expenses d u = df /\ df <> [] /\
  let l30 := sum_amount (filter (fun r => Z.leb (minus_days now 30) (date_instant (e_date r))) df) in
  let l7 := sum_amount (filter (fun r => Z.leb (minus_days now 7) (date_instant (e_date r))) df) in
  s = mkSummary
        (sum_amount df)
        (sum_amount df / inject_Z (Z.of_nat (length df)))
        (length df)
        (match mode_first (map e_category df) with Some c => c | None => ascii_pystr "N/A" end)
        (max_amount df)
        (sum_amount (filter (fun r => Z.eqb (month (e_date r)) (month (dt_date now))
                                      && Z.eqb (year (e_date r)) (year (dt_date now))) df))
        l30 l7
        (if Qeq_bool l30 0 then 0 else l30 / 30).
Proof.
  unfold get_expense_summary. intros d u now s.
  destruct (get_current_user_expenses d u) as [|r df]; [discriminate|].
  intros H. injection H as <-. exists (r :: df). split; [reflexivity|]. split; [discriminate|].
  reflexivity.
Qed.

Lemma fold_Qplus_acc : forall l a, fold_left Qplus l a == a + fold_left Qplus l 0.
Proof.
  induction l as [|x l IH]; intros a; simpl; [ring|].
  rewrite (IH (a + x)), (IH (0 + x)). ring.
Qed.

Lemma sum_amount_cons : forall r l, sum_amount (r :: l) == e_amount r + sum_amount l.
Proof.
  intros r l. unfold sum_amount. cbn [map fold_left]. rewrite fold_Qplus_acc. ring.
Qed.

Lemma sum_amount_app : forall l1 l2, sum_amount (l1 ++ l2) == sum_amount l1 + sum_amount l2.
Proof.
  induction l1 as [|r l1 IH]; intros l2; simpl app.
  - unfold sum_amount at 2. simpl. ring.
  - rewrite !sum_amount_cons, IH. ring.
Qed.

Lemma qmax_ge_l : forall a b, a <= qmax a b.
Proof.
  intros a b. unfold qmax. destruct (Qle_bool a b) eqn:E.
  - apply Qle_bool_iff, E.
  - apply Qle_refl.
Qed.

Lemma qmax_ge_r : forall a b, b <= qmax a b.
Proof.
  intros a b. unfold qmax. destruct (Qle_bool a b) eqn:E.
  - apply Qle_refl.
  - apply Qlt_le_weak, Qnot_le_lt. intros H. apply Qle_bool_iff in H. congruence.
Qed.

Lemma fold_qmax_ge : forall l a,
  a <= fold_left qmax l a /\ forall x, In x l -> x <= fold_left qmax l a.
Proof.
  induction l as [|y l IH]; intros a; simpl.
  - split; [apply Qle_refl | intros _ []].
  - destruct (IH (qmax a y)) as [H1 H2]. split.
    + eapply Qle_trans; [apply qmax_ge_l | exact H1].
    + intros x [<-|Hx]; [eapply Qle_trans; [apply qmax_ge_r | exact H1] | apply H2, Hx].
Qed.

Lemma fold_qmax_in : forall l a, In (fold_left qmax l a) (a :: l).
Proof.
  induction l as [|y l IH]; intros a; simpl; [left; reflexivity|].
  set (m := qmax a y). destruct (IH m) as [E|E]; [|right; right; exact E].
  rewrite <- E. unfold m, qmax. destruct (Qle_bool a y); [right; left | left]; reflexivity.
Qed.

Lemma max_amount_spec : forall df, df <> [] ->
  (forall r, In r df -> e_amount r <= max_amount df) /\
  exists r, In r df /\ max_amount df = e_amount r.
Proof.
  intros [|r0 rest] Hne; [contradiction|]. unfold max_amount. cbn [map].
  destruct (fold_qmax_ge (map e_amount rest) (e_amount r0)) as [H1 H2]. split.
  - intros r [<-|Hr]; [exact H1 | apply H2, in_map, Hr].
  - pose proof (fold_qmax_in (map e_amount rest) (e_amount r0)) as Hin.
    change (e_amount r0 :: map e_amount rest) with (map e_amount (r0 :: rest)) in Hin.
    apply in_map_iff in Hin as (r & Hr & Hin). exists r. split; [exact Hin | symmetry; exact Hr].
Qed.

(** X11. [largest_expense] is the largest amount of the listing: every
    listed amount is at most it, and some listed expense has exactly that
    amount. *)
Theorem largest_expense_is_max : forall d u now s,
  get_expense_summary d u now = Some s ->
  (forall r, In r (get_current_user_expenses d u) -> e_amount r <= largest_expense s) /\
  exists r, In r (get_current_user_expenses d u) /\ largest_expense s = e_amount r.
Proof.
  unfold get_expense_summary. intros d u now s.
  destruct (get_current_user_expenses d u) as [|r df]; [discriminate|].
  cbv zeta. intros H. injection H as <-. cbn [largest_expense].
  apply max_amount_spec. discriminate.
Qed.

Lemma largest_expense_is_max_witness :
  exists s, get_expense_summary two_owner_db (Some 2%Z) noon_2024_03_31 = Some s /\
  (forall r, In r (get_current_user_expenses two_owner_db (Some 2%Z)) -> e_amount r <= largest_expense s) /\
  exists r, In r (get_current_user_expenses two_owner_db (Some 2%Z)) /\ largest_expense s = e_amount r.
Proof.
  eexists. split; [reflexivity|].
  apply (largest_expense_is_max two_owner_db (Some 2%Z) noon_2024_03_31). reflexivity.
Defined.

Lemma sum_filter_mono : forall (f g : expense -> bool) l,
  (forall x, In x l -> f x = true -> g x = true) ->
  (forall x, In x l -> 0 <= e_amount x) ->
  sum_amount (filter f l) <= sum_amount (filter g l).
Proof.
  intros f g. induction l as [|x l IH]; intros Hfg Hnn; simpl; [apply Qle_refl|].
  assert (IH' : sum_amount (filter f l) <= sum_amount (filter g l)).
  { apply IH; intros y Hy; [apply Hfg | apply Hnn]; right; exact Hy. }
  assert (Hx : 0 <= e_amount x) by (apply Hnn; left; reflexivity).
  destruct (f x) eqn:Ef.
  - rewrite (Hfg x (or_introl eq_refl) Ef), !sum_amount_cons.
    apply Qplus_le_compat; [apply Qle_refl | exact IH'].
  - destruct (g x); [|exact IH'].
    rewrite sum_amount_cons. setoid_replace (sum_amount (filter f l))
      with (0 + sum_amount (filter f l)) by ring.
    apply Qplus_le_compat; assumption.
Qed.

Lemma filter_true {A} (l : list A) : filter (fun _ => true) l = l.
Proof. induction l as [|x l IH]; simpl; [reflexivity | rewrite IH; reflexivity]. Qed.

Lemma filter_false {A} (l : list A) : filter (fun _ => false) l = [].
Proof. induction l as [|x l IH]; simpl; [reflexivity | exact IH]. Qed.

Lemma sum_filter_nonneg : forall f l, (forall x, In x l -> 0 <= e_amount x) ->
  0 <= sum_amount (filter f l).
Proof.
  intros f l Hnn.
  pose proof (sum_filter_mono (fun _ => false) f l ltac:(discriminate) Hnn) as H.
  rewrite filter_false in H. exact H.
Qed.

Lemma listing_amounts_nonneg : forall d u, amounts_checked d ->
  forall r, In r (get_current_user_expenses d u) -> 0 <= e_amount r.
Proof.
  intros d u Hd r Hr. apply in_get_current_user_expenses in Hr as (t & Ht & Hin & _).
  apply expenses_with_user_id_ok in Ht as [Ht _]. apply (proj2 (Hd t Ht)), Hin.
Qed.

Lemma fresh_amounts_checked : forall ops, amounts_checked (run_ops empty_db ops).
Proof. intros ops. apply run_ops_amounts_checked. intros t Ht; discriminate. Qed.

(** X13. On a database built from a fresh file (so every amount is
    [>= 0]), no figure of the summary is negative. A rounded sum of
    non-negative numbers is non-negative, so this does not depend on the
    sums being exact. *)
Theorem summary_figures_nonneg : forall ops u now s,
  get_expense_summary (run_ops empty_db ops) u now = Some s ->
  0 <= total_expenses s /\ 0 <= average_expense s /\ 0 <= monthly_expenses s /\
  0 <= last_30_days s /\ 0 <= last_7_days s /\ 0 <= daily_average s.
Proof.
  intros ops u now s H.
  pose proof (listing_amounts_nonneg (run_ops empty_db ops) u (fresh_amounts_checked ops)) as Hnn.
  destruct (summary_fields _ _ _ _ H) as (df & Edf & Hne & ->). rewrite Edf in Hnn.
  cbn [last_7_days last_30_days total_expenses monthly_expenses daily_average average_expense].
  assert (Htot : 0 <= sum_amount df).
  { pose proof (sum_filter_nonneg (fun _ => true) df Hnn) as H0.
    rewrite filter_true in H0. exact H0. }
  split; [exact Htot|].
  split.
  { apply Qle_shift_div_l.
    - destruct df as [|r df]; [contradiction|]. unfold Qlt. simpl. lia.
    - rewrite Qmult_0_l. exact Htot. }
  split; [apply sum_filter_nonneg, Hnn|].
  split; [apply sum_filter_nonneg, Hnn|].
  split; [apply sum_filter_nonneg, Hnn|].
  match goal with |- context [Qeq_bool ?l 0] => destruct (Qeq_bool l 0) end; [apply Qle_refl|].
  apply Qle_shift_div_l; [reflexivity|]. rewrite Qmult_0_l. apply sum_filter_nonneg, Hnn.
Qed.

Lemma summary_figures_nonneg_witness :
  exists s, get_expense_summary (run_ops empty_db
      [OpInitDb; OpAddExpense (PyStr food) 12 d_2024_03_31 (PyStr []) (Some 1%Z)])
      (Some 1%Z) noon_2024_03_31 = Some s /\
  0 <= total_expenses s /\ 0 <= average_expense s /\ 0 <= monthly_expenses s /\
  0 <= last_30_days s /\ 0 <= last_7_days s /\ 0 <= daily_average s.
Proof.
  eexists. split; [vm_compute; reflexivity|].
  apply (summary_figures_nonneg
           [OpInitDb; OpAddExpense (PyStr food) 12 d_2024_03_31 (PyStr []) (Some 1%Z)]
           (Some 1%Z) noon_2024_03_31).
  vm_compute. reflexivity.
Defined.

End SummaryStats.

(** ** The most frequent category *)

Lemma pystr_ltb_irrefl : forall a, pystr_ltb a a = false.
Proof.
  induction a as [|x a IH]; simpl; [reflexivity|]. rewrite Z.ltb_irrefl. exact IH.
Qed.

Lemma pystr_ltb_trans : forall a b c,
  pystr_ltb a b = true -> pystr_ltb b c = true -> pystr_ltb a c = true.
Proof.
  induction a as [|x a IH]; intros [|y b] [|z c]; simpl; intros H1 H2;
    try discriminate; try reflexivity.
  destruct (Z.ltb_spec x y), (Z.ltb_spec y x), (Z.ltb_spec y z), (Z.ltb_spec z y),
           (Z.ltb_spec x z), (Z.ltb_spec z x);
    try discriminate; try reflexivity; try lia.
  apply (IH b c); assumption.
Qed.

Section Mode.
Variable cats : list pystr.

Definition cnt := cat_count cats.

Definition step (best c : pystr) : pystr :=
  if Nat.ltb (cnt best) (cnt c) || (Nat.eqb (cnt c) (cnt best) && pystr_ltb c best) then c else best.

(** [best] is in [seen], and no category of [seen] is more frequent, or
    as frequent and smaller. *)
Definition mode_inv (best : pystr) (seen : list pystr) : Prop :=
  In best seen /\
  forall c, In c seen -> (cnt c < cnt best)%nat \/ (cnt c = cnt best /\ pystr_ltb c best = false).

Lemma mode_step : forall best seen c, mode_inv best seen -> mode_inv (step best c) (seen ++ [c]).
Proof.
  intros best seen c [Hin Hall]. unfold step.
  destruct (Nat.ltb_spec (cnt best) (cnt c)) as [Hlt|Hge]; cbn [orb].
  - split; [apply in_or_app; right; left; reflexivity|].
    intros c' Hc'. apply in_app_or in Hc' as [Hc'|[<-|[]]].
    + left. destruct (Hall c' Hc') as [H|[H _]]; lia.
    + right. split; [reflexivity | apply pystr_ltb_irrefl].
  - destruct (Nat.eqb_spec (cnt c) (cnt best)) as [Heq|Hne]; cbn [andb];
      [destruct (pystr_ltb c best) eqn:Hcb|].
    + split; [apply in_or_app; right; left; reflexivity|].
      intros c' Hc'. apply in_app_or in Hc' as [Hc'|[<-|[]]].
      * destruct (Hall c' Hc') as [H|[H Hc'b]]; [left; lia|].
        right. split; [lia|].
        destruct (pystr_ltb c' c) eqn:E; [|reflexivity].
        rewrite (pystr_ltb_trans _ _ _ E Hcb) in Hc'b. discriminate.
      * right. split; [reflexivity | apply pystr_ltb_irrefl].
    + split; [apply in_or_app; left; exact Hin|].
      intros c' Hc'. apply in_app_or in Hc' as [Hc'|[<-|[]]]; [apply Hall, Hc'|].
      right. split; [exact Heq | exact Hcb].
    + split; [apply in_or_app; left; exact Hin|].
      intros c' Hc'. apply in_app_or in Hc' as [Hc'|[<-|[]]]; [apply Hall, Hc'|].
      left. lia.
Qed.

Lemma mode_fold : forall rest best seen,
  mode_inv best seen -> mode_inv (fold_left step rest best) (seen ++ rest).
Proof.
  induction rest as [|c rest IH]; intros best seen H; simpl.
  - rewrite app_nil_r. exact H.
  - replace (seen ++ c :: rest) with ((seen ++ [c]) ++ rest) by (rewrite <- app_assoc; reflexivity).
    apply IH, mode_step, H.
Qed.

End Mode.

Lemma mode_first_spec : forall cats m, mode_first cats = Some m ->
  In m cats /\
  forall c, In c cats ->
    (cat_count cats c < cat_count cats m)%nat \/
    (cat_count cats c = cat_count cats m /\ pystr_ltb c m = false).
Proof.
  intros cats m. unfold mode_first. destruct cats as [|c0 rest] eqn:E; [discriminate|].
  intros H. injection H as <-. rewrite <- E.
  pose proof (mode_fold cats rest c0 [c0]) as Hf. unfold mode_inv, step, cnt in Hf.
  assert (Hc : [c0] ++ rest = cats) by (rewrite E; reflexivity). rewrite Hc in Hf. apply Hf.
  split; [left; reflexivity|]. intros c [<-|[]].
  right. split; [reflexivity | apply pystr_ltb_irrefl].
Qed.

(** X14. [top_category] is a most frequent category of the listing, and
    the smallest among those as frequent: every listed category occurs
    less often, or as often and is not smaller (Python [str] order). *)
Theorem top_category_is_mode : forall d u now s,
  get_expense_summary d u now = Some s ->
  let cats := map e_category (get_current_user_expenses d u) in
  In (top_category s) cats /\
  forall c, In c cats ->
    (cat_count cats c < cat_count cats (top_category s))%nat \/
    (cat_count cats c = cat_count cats (top_category s) /\ pystr_ltb c (top_category s) = false).
Proof.
  intros d u now s H cats.
  destruct (summary_fields _ _ _ _ H) as (df & Edf & Hne & ->). cbn [top_category].
  unfold cats. rewrite Edf.
  destruct (mode_first (map e_category df)) as [m|] eqn:Hm.
  - apply mode_first_spec, Hm.
  - destruct df as [|r df]; [contradiction | discriminate].
Qed.

Lemma top_category_is_mode_witness :
  exists s, get_expense_summary two_owner_db (Some 1) noon_2024_03_31 = Some s /\
  let cats := map e_category (get_current_user_expenses two_owner_db (Some 1)) in
  In (top_category s) cats /\
  forall c, In c cats ->
    (cat_count cats c < cat_count cats (top_category s))%nat \/
    (cat_count cats c = cat_count cats (top_category s) /\ pystr_ltb c (top_category s) = false).
Proof.
  eexists. split; [reflexivity|].
  apply (top_category_is_mode two_owner_db (Some 1) noon_2024_03_31). reflexivity.
Defined.

(** ** Formatting amounts *)

Fixpoint rval (cs : pystr) : Z :=
  match cs with
  | [] => 0
  | c :: cs' => if is_digit c then (c - 48) + 10 * rval cs' else rval cs'
  end.

Lemma read_rev : forall cs, fold_left read_step (rev cs) 0 = rval cs.
Proof.
  induction cs as [|c cs IH]; [reflexivity|]. cbn [rev].
  rewrite fold_left_app, IH. cbn [fold_left rval]. unfold read_step. destruct (is_digit c); lia.
Qed.

Lemma rval_group_rev : forall ds i, rval (group_rev i ds) = rval ds.
Proof.
  induction ds as [|d ds IH]; intros i; [reflexivity|]. cbn [group_rev].
  destruct (Nat.eqb (i mod 3) 0 && Nat.ltb 0 i); cbn [app rval]; rewrite IH; [|reflexivity].
  replace (is_digit 44) with false by reflexivity. reflexivity.
Qed.

Lemma is_digit_mod10 : forall m, is_digit (48 + m mod 10) = true.
Proof.
  intros m. unfold is_digit. pose proof (Z.mod_pos_bound m 10 ltac:(lia)).
  apply andb_true_iff. rewrite !Z.leb_le. lia.
Qed.

Lemma rval_digits_rev : forall fuel m, 0 <= m < 10 ^ Z.of_nat fuel ->
  rval (digits_rev fuel m) = m.
Proof.
  induction fuel as [|f IH]; intros m Hm.
  - simpl in *. lia.
  - cbn [digits_rev rval]. rewrite is_digit_mod10.
    pose proof (Z.mod_pos_bound m 10 ltac:(lia)).
    pose proof (Z.div_mod m 10 ltac:(lia)).
    destruct (Z.ltb_spec m 10).
    + cbn [rval]. rewrite Z.mod_small by lia. lia.
    + rewrite IH; [lia|]. rewrite Nat2Z.inj_succ, Z.pow_succ_r in Hm by lia.
      split; [apply Z.div_pos; lia|]. apply Z.div_lt_upper_bound; lia.
Qed.

Lemma digit_fuel_enough : forall m, 0 <= m -> m < 10 ^ Z.of_nat (digit_fuel m).
Proof.
  intros m Hm. unfold digit_fuel.
  pose proof (Z.log2_nonneg m).
  rewrite Z2Nat.id by lia.
  destruct (Z.eq_dec m 0) as [->|Hne]; [reflexivity|].
  destruct (Z.log2_spec m ltac:(lia)) as [_ Hlt].
  eapply Z.lt_le_trans; [exact Hlt|].
  rewrite <- Z.add_1_r. apply Z.pow_le_mono_l. lia.
Qed.

Lemma group_rev_chars : forall ds i c, In c (group_rev i ds) -> c = 44 \/ In c ds.
Proof.
  induction ds as [|d ds IH]; intros i c Hc; cbn [group_rev] in Hc; [contradiction|].
  apply in_app_or in Hc as [Hc|Hc].
  - destruct (_ && _); simpl in Hc;
      [destruct Hc as [<-|[<-|[]]] | destruct Hc as [<-|[]]]; simpl; auto.
  - destruct (IH _ _ Hc) as [H|H]; [left; exact H | right; right; exact H].
Qed.

Lemma digits_rev_chars : forall fuel m c, In c (digits_rev fuel m) -> is_digit c = true.
Proof.
  induction fuel as [|f IH]; intros m c Hc; simpl in Hc; [contradiction|].
  destruct Hc as [<-|Hc]; [apply is_digit_mod10|].
  destruct (Z.ltb m 10); [contradiction | exact (IH _ _ Hc)].
Qed.

Lemma round_half_even_spec : forall q : Q, (0 <= q)%Q ->
  (0 <= round_half_even q)%Z /\
  (-(1 # 2) <= inject_Z (round_half_even q) - q <= 1 # 2)%Q.
Proof.
  intros q Hq. unfold round_half_even.
  pose proof (Qfloor_le q) as Hle. pose proof (Qlt_floor q) as Hlt.
  rewrite inject_Z_plus in Hlt.
  assert (H0 : (0 <= Qfloor q)%Z).
  { pose proof (Qfloor_resp_le 0 q Hq) as H. exact H. }
  set (f := Qfloor q) in *.
  destruct (Qcompare (q - inject_Z f) (1 # 2)) eqn:E.
  - apply Qeq_alt in E.
    destruct (Z.even f); (split; [lia|]); rewrite ?inject_Z_plus; change (inject_Z 1) with 1%Q in *; split; lra.
  - apply Qlt_alt in E. split; [exact H0|]. change (inject_Z 1) with 1%Q in *. split; lra.
  - apply Qgt_alt in E. split; [lia|]. rewrite inject_Z_plus. change (inject_Z 1) with 1%Q in *. split; lra.
Qed.

Lemma read_digits_body : forall cents, 0 <= cents ->
  read_digits (rev (group_rev 0 (digits_rev (digit_fuel (cents / 100)) (cents / 100)))
               ++ [46; 48 + cents mod 100 / 10; 48 + cents mod 100 mod 10]) = cents.
Proof.
  intros cents Hc. unfold read_digits. rewrite fold_left_app, read_rev, rval_group_rev.
  rewrite rval_digits_rev.
  2: { split; [apply Z.div_pos; lia | apply digit_fuel_enough, Z.div_pos; lia]. }
  pose proof (Z.mod_pos_bound cents 100 ltac:(lia)).
  pose proof (Z.div_mod cents 100 ltac:(lia)).
  set (fr := cents mod 100) in *. set (u := cents / 100) in *.
  pose proof (Z.mod_pos_bound fr 10 ltac:(lia)).
  pose proof (Z.div_mod fr 10 ltac:(lia)).
  assert (Hd : 0 <= fr / 10 <= 9).
  { split; [apply Z.div_pos; lia|]. apply Z.lt_succ_r, Z.div_lt_upper_bound; lia. }
  cbn [fold_left]. unfold read_step.
  replace (is_digit 46) with false by reflexivity.
  replace (is_digit (48 + fr / 10)) with true
    by (symmetry; unfold is_digit; apply andb_true_iff; rewrite !Z.leb_le; lia).
  replace (is_digit (48 + fr mod 10)) with true by (symmetry; apply is_digit_mod10).
  lia.
Qed.

Lemma read_currency_nonneg : forall x c rest, c <> 45 ->
  read_currency (x :: c :: rest) = (inject_Z (read_digits (c :: rest)) / 100)%Q.
Proof.
  intros x c rest Hc. unfold read_currency.
  repeat match goal with |- context [match ?p with _ => _ end] => is_var p; destruct p end;
    try reflexivity.
  exfalso. apply Hc. reflexivity.
Qed.

(** X15. [format_currency] prints the currency sign U+20B9, then a minus
    sign exactly for a negative amount, then separators and digits only,
    ending in [.] and two digits; read back, the text is within half a
    hundredth of the amount. *)
Theorem format_currency_read_back : forall a : Q,
  (exists int d1 d2,
     format_currency a = 8377 :: (if Qle_bool 0 a then [] else [45]) ++ int ++ [46; d1; d2] /\
     (forall c, In c int -> c = 44 \/ is_digit c = true) /\
     is_digit d1 = true /\ is_digit d2 = true) /\
  (-(1 # 200) <= read_currency (format_currency a) - a <= 1 # 200)%Q.
Proof.
  intros a.
  assert (Habs : (0 <= Qabs a * 100)%Q).
  { apply Qmult_le_0_compat; [apply Qabs_nonneg | discriminate]. }
  destruct (round_half_even_spec _ Habs) as [Hpos Hbound].
  set (cents := round_half_even (Qabs a * 100)) in *.
  set (int := rev (group_rev 0 (digits_rev (digit_fuel (cents / 100)) (cents / 100)))).
  assert (Hint : forall c, In c int -> c = 44 \/ is_digit c = true).
  { intros c Hc. apply in_rev in Hc. destruct (group_rev_chars _ _ _ Hc) as [H|H];
      [left; exact H | right; exact (digits_rev_chars _ _ _ H)]. }
  assert (Hfmt : format_currency a =
                 8377 :: (if Qle_bool 0 a then [] else [45]) ++ int ++
                 [46; 48 + cents mod 100 / 10; 48 + cents mod 100 mod 10]) by reflexivity.
  split.
  - do 3 eexists. split; [exact Hfmt|]. split; [exact Hint|].
    pose proof (Z.mod_pos_bound cents 100 ltac:(lia)).
    split; [|apply is_digit_mod10].
    assert (0 <= cents mod 100 / 10 <= 9).
    { split; [apply Z.div_pos; lia|]. apply Z.lt_succ_r, Z.div_lt_upper_bound; lia. }
    unfold is_digit. apply andb_true_iff. rewrite !Z.leb_le. lia.
  - pose proof (read_digits_body cents Hpos) as Hread. fold int in Hread.
    rewrite Hfmt.
    destruct (Qle_bool 0 a) eqn:Ha.
    + apply Qle_bool_iff in Ha. rewrite Qabs_pos in Hbound by exact Ha.
      cbn [app]. set (body := int ++ _) in *.
      assert (Hbody : forall c, In c body -> c <> 45).
      { intros c Hc Hc45. subst c. apply in_app_or in Hc as [Hc|Hc].
        - destruct (Hint 45 Hc) as [H|H]; discriminate.
        - destruct Hc as [H|[H|[H|[]]]]; [discriminate| |].
          + assert (H1 : 0 <= cents mod 100 / 10).
            { apply Z.div_pos; [apply Z.mod_pos_bound|]; lia. }
            lia.
          + pose proof (Z.mod_pos_bound (cents mod 100) 10 ltac:(lia)). lia. }
      destruct body as [|c rest] eqn:Eb; [destruct int; discriminate|].
      assert (Hr : read_currency (8377 :: c :: rest) = (inject_Z cents / 100)%Q).
      { rewrite read_currency_nonneg by (apply Hbody; left; reflexivity).
        rewrite Hread. reflexivity. }
      rewrite Hr. unfold Qdiv. change (/ 100)%Q with (1 # 100)%Q. split; lra.
    + assert (Hn : (a <= 0)%Q).
      { apply Qlt_le_weak, Qnot_le_lt. intros H. apply Qle_bool_iff in H. congruence. }
      rewrite Qabs_neg in Hbound by exact Hn.
      cbn [app read_currency]. rewrite Hread.
      unfold Qdiv. change (/ 100)%Q with (1 # 100)%Q. split; lra.
Qed.

(** ** Grouping *)

Section Grouping.
Local Open Scope Q_scope.

Lemma qsum_cons : forall x l, qsum (x :: l) == x + qsum l.
Proof. intros x l. unfold qsum. cbn [fold_left]. rewrite fold_Qplus_acc. ring. Qed.

Lemma sum_amount_qsum : forall df, sum_amount df = qsum (map e_amount df).
Proof. reflexivity. Qed.

Lemma qsum_perm : forall l l', Permutation l l' -> qsum l == qsum l'.
Proof.
  intros l l' P. induction P as [|x l l' P IH|x y l|l l' l'' P1 IH1 P2 IH2].
  - reflexivity.
  - rewrite !qsum_cons, IH. reflexivity.
  - rewrite !qsum_cons. ring.
  - rewrite IH1. exact IH2.
Qed.

Lemma qsum_map_ext {A} : forall (f g : A -> Q) l,
  (forall x, In x l -> f x == g x) -> qsum (map f l) == qsum (map g l).
Proof.
  intros f g. induction l as [|x l IH]; intros H; [reflexivity|]. cbn [map].
  rewrite !qsum_cons, (H x (or_introl eq_refl)), IH; [reflexivity|].
  intros y Hy. apply H. right. exact Hy.
Qed.

Lemma qsum_map_plus {A} : forall (f g : A -> Q) l,
  qsum (map (fun x => f x + g x) l) == qsum (map f l) + qsum (map g l).
Proof.
  intros f g. induction l as [|x l IH]; [reflexivity|]. cbn [map].
  rewrite !qsum_cons, IH. ring.
Qed.

Lemma qsum_map_zero {A} : forall (f : A -> Q) l,
  (forall x, In x l -> f x == 0) -> qsum (map f l) == 0.
Proof.
  intros f. induction l as [|x l IH]; intros H; [reflexivity|]. cbn [map].
  rewrite qsum_cons, (H x (or_introl eq_refl)), IH; [ring|].
  intros y Hy. apply H. right. exact Hy.
Qed.

Lemma list_sum_map_plus {A} : forall (f g : A -> nat) l,
  list_sum (map (fun x => f x + g x)%nat l) = (list_sum (map f l) + list_sum (map g l))%nat.
Proof. intros f g. induction l as [|x l IH]; simpl; [reflexivity | rewrite IH; lia]. Qed.

Lemma list_sum_map_zero {A} : forall (f : A -> nat) l,
  (forall x, In x l -> f x = 0%nat) -> list_sum (map f l) = 0%nat.
Proof.
  intros f. induction l as [|x l IH]; intros H; simpl; [reflexivity|].
  rewrite (H x (or_introl eq_refl)), IH; [reflexivity|]. intros y Hy. apply H. right. exact Hy.
Qed.

Lemma list_sum_perm : forall l l', Permutation l l' -> list_sum l = list_sum l'.
Proof.
  intros l l' P. induction P; simpl; lia.
Qed.

Section GroupByFacts.
Context {K : Type} (eqb ltb : K -> K -> bool).
Hypothesis eqb_iff : forall a b, eqb a b = true <-> a = b.

Lemma eqb_refl_k : forall a, eqb a a = true.
Proof. intros a. apply eqb_iff. reflexivity. Qed.

Lemma insert_asc_perm : forall k ks, Permutation (insert_asc ltb k ks) (k :: ks).
Proof.
  intros k. induction ks as [|k' ks IH]; simpl; [reflexivity|].
  destruct (ltb k' k); [|reflexivity].
  rewrite IH. apply perm_swap.
Qed.

Lemma sort_asc_perm : forall ks, Permutation (sort_asc ltb ks) ks.
Proof.
  induction ks as [|k ks IH]; simpl; [reflexivity|].
  rewrite insert_asc_perm, IH. reflexivity.
Qed.

Lemma dedup_in : forall ks k, In k (dedup eqb ks) <-> In k ks.
Proof.
  induction ks as [|k0 ks IH]; intros k; simpl; [reflexivity|].
  destruct (existsb (eqb k0) ks) eqn:E; simpl; rewrite IH; [|reflexivity].
  split; [intros H; right; exact H|]. intros [<-|H]; [|exact H].
  apply existsb_exists in E as (x & Hx & Ex). apply eqb_iff in Ex. subst x. exact Hx.
Qed.

Lemma dedup_nodup : forall ks, NoDup (dedup eqb ks).
Proof.
  induction ks as [|k ks IH]; simpl; [constructor|].
  destruct (existsb (eqb k) ks) eqn:E; [exact IH|].
  constructor; [|exact IH]. intros H. rewrite dedup_in in H.
  assert (existsb (eqb k) ks = true) by (apply existsb_exists; exists k; split; [exact H | apply eqb_refl_k]).
  congruence.
Qed.

Lemma group_keys_nodup : forall key df, NoDup (group_keys eqb ltb key df).
Proof.
  intros key df. unfold group_keys.
  apply (Permutation_NoDup (Permutation_sym (sort_asc_perm _))), dedup_nodup.
Qed.

Lemma group_keys_in : forall key df k, In k (group_keys eqb ltb key df) <-> In k (map key df).
Proof.
  intros key df k. unfold group_keys.
  rewrite (perm_in_iff _ _ k (sort_asc_perm _)). apply dedup_in.
Qed.

Lemma qsum_indicator : forall (a : Q) x ks, NoDup ks -> In x ks ->
  qsum (map (fun k => if eqb x k then a else 0) ks) == a.
Proof.
  intros a x ks Hnd Hin. induction Hnd as [|k ks Hk Hnd IH]; [contradiction|].
  cbn [map]. rewrite qsum_cons. destruct (eqb x k) eqn:E.
  - apply eqb_iff in E. subst k.
    rewrite qsum_map_zero; [ring|]. intros y Hy. destruct (eqb x y) eqn:Ey; [|reflexivity].
    apply eqb_iff in Ey. subst y. contradiction.
  - destruct Hin as [->|Hin]; [rewrite eqb_refl_k in E; discriminate|].
    rewrite IH by exact Hin. ring.
Qed.

Lemma list_sum_indicator : forall x ks, NoDup ks -> In x ks ->
  list_sum (map (fun k => if eqb x k then 1 else 0)%nat ks) = 1%nat.
Proof.
  intros x ks Hnd Hin. induction Hnd as [|k ks Hk Hnd IH]; [contradiction|].
  cbn [map list_sum fold_right]. destruct (eqb x k) eqn:E.
  - apply eqb_iff in E. subst k.
    fold (list_sum (map (fun k => if eqb x k then 1 else 0)%nat ks)).
    rewrite list_sum_map_zero; [reflexivity|]. intros y Hy. destruct (eqb x y) eqn:Ey; [|reflexivity].
    apply eqb_iff in Ey. subst y. contradiction.
  - destruct Hin as [->|Hin]; [rewrite eqb_refl_k in E; discriminate|].
    fold (list_sum (map (fun k => if eqb x k then 1 else 0)%nat ks)). rewrite IH by exact Hin. reflexivity.
Qed.

Lemma group_rows_cons : forall key r df k,
  group_rows eqb key (r :: df) k =
  if eqb (key r) k then r :: group_rows eqb key df k else group_rows eqb key df k.
Proof. reflexivity. Qed.

(** Summing the groups gives back the whole frame. *)
Lemma qsum_groups : forall key df ks, NoDup ks -> (forall r, In r df -> In (key r) ks) ->
  qsum (map (fun k => sum_amount (group_rows eqb key df k)) ks) == sum_amount df.
Proof.
  intros key df ks Hnd. induction df as [|r df IH]; intros Hcov.
  - apply qsum_map_zero. intros k _. reflexivity.
  - rewrite (qsum_map_ext _ (fun k => (if eqb (key r) k then e_amount r else 0)
                                      + sum_amount (group_rows eqb key df k))).
    + rewrite qsum_map_plus, qsum_indicator by (exact Hnd || apply Hcov; left; reflexivity).
      rewrite IH by (intros x Hx; apply Hcov; right; exact Hx).
      rewrite sum_amount_cons. reflexivity.
    + intros k _. rewrite group_rows_cons. destruct (eqb (key r) k).
      * apply sum_amount_cons.
      * ring.
Qed.

Lemma count_groups : forall key df ks, NoDup ks -> (forall r, In r df -> In (key r) ks) ->
  list_sum (map (fun k => length (group_rows eqb key df k)) ks) = length df.
Proof.
  intros key df ks Hnd. induction df as [|r df IH]; intros Hcov.
  - apply list_sum_map_zero. intros k _. reflexivity.
  - rewrite (map_ext (fun k => length (group_rows eqb key (r :: df) k))
                     (fun k => (if eqb (key r) k then 1 else 0) + length (group_rows eqb key df k))%nat).
    + rewrite list_sum_map_plus, list_sum_indicator by (exact Hnd || apply Hcov; left; reflexivity).
      rewrite IH by (intros x Hx; apply Hcov; right; exact Hx). reflexivity.
    + intros k. rewrite group_rows_cons. destruct (eqb (key r) k); reflexivity.
Qed.

Lemma group_keys_cover : forall key df r, In r df -> In (key r) (group_keys eqb ltb key df).
Proof. intros key df r Hr. apply group_keys_in, in_map, Hr. Qed.

End GroupByFacts.

End Grouping.

(** ** Chart data *)

Section Charts.
Local Open Scope Q_scope.

Lemma map_map_ext {A B C} (f : A -> B) (g : B -> C) (h : A -> C) (l : list A) :
  (forall x, g (f x) = h x) -> map g (map f l) = map h l.
Proof. intros H. rewrite map_map. apply map_ext, H. Qed.

Lemma insert_by_amount_perm : forall b x l, Permutation (insert_by_amount b x l) (x :: l).
Proof.
  intros b x. induction l as [|y l IH]; simpl; [reflexivity|].
  destruct (if b then _ else _); [|reflexivity].
  rewrite IH. apply perm_swap.
Qed.

Lemma sort_by_amount_perm : forall b l, Permutation (sort_by_amount b l) l.
Proof.
  intros b. induction l as [|x l IH]; simpl; [reflexivity|].
  rewrite insert_by_amount_perm, IH. reflexivity.
Qed.

Lemma category_totals_facts : forall df,
  NoDup (map fst (category_totals df)) /\
  (forall c, In c (map fst (category_totals df)) <-> In c (map e_category df)).
Proof.
  intros df. unfold category_totals.
  rewrite (map_map_ext _ fst (fun c => c)), map_id by reflexivity.
  split; [apply group_keys_nodup, pystr_eqb_eq|].
  intros c; apply group_keys_in, pystr_eqb_eq.
Qed.

(** X16. The pie and bar charts of categories have one slice or bar per
    category of the frame: every category of the frame, each once. *)
Theorem category_chart_categories : forall df rows,
  create_category_pie_chart df = Some rows \/ create_category_bar_chart df = Some rows ->
  NoDup (map fst rows) /\
  (forall c, In c (map fst rows) <-> In c (map e_category df)).
Proof.
  intros df rows H.
  assert (Hp : exists b, rows = sort_by_amount b (category_totals df)).
  { unfold create_category_pie_chart, create_category_bar_chart in H.
    destruct df as [|r df]; [destruct H; discriminate|].
    destruct H as [H|H]; injection H as <-; eexists; reflexivity. }
  destruct Hp as [b ->].
  destruct (category_totals_facts df) as (Hnd & Hin).
  pose proof (sort_by_amount_perm b (category_totals df)) as P.
  split; [apply (Permutation_NoDup (Permutation_sym (Permutation_map fst P))), Hnd|].
  intros c; rewrite (perm_in_iff _ _ c (Permutation_map fst P)); apply Hin.
Qed.

Definition two_categories : list expense :=
  [mkExpense 1 food 10 d_2024_03_31 (Some []) (Some 1%Z);
   mkExpense 2 (ascii_pystr "Rent") 20 d_2024_03_31 (Some []) (Some 1%Z);
   mkExpense 3 food 5 d_2024_03_31 (Some []) (Some 1%Z)].

Lemma category_chart_categories_witness :
  exists rows, create_category_pie_chart two_categories = Some rows /\
  NoDup (map fst rows) /\
  (forall c, In c (map fst rows) <-> In c (map e_category two_categories)).
Proof.
  eexists. split; [vm_compute; reflexivity|].
  apply category_chart_categories. left. vm_compute. reflexivity.
Defined.

Lemma month_eqb_iff : forall a b, month_eqb a b = true <-> a = b.
Proof.
  intros [y1 m1] [y2 m2]. unfold month_eqb. cbn [fst snd].
  rewrite andb_true_iff, !Z.eqb_eq. split; [intros [-> ->]; reflexivity|].
  intros H. injection H as -> ->. split; reflexivity.
Qed.

(** X17. The monthly trend chart has one point per calendar month of the
    frame, each month once, and its transaction counts add up to the
    number of rows. *)
Theorem monthly_trend_months : forall df rows,
  create_monthly_trend_chart df = Some rows ->
  NoDup (map (fun x => fst (fst x)) rows) /\
  (forall m, In m (map (fun x => fst (fst x)) rows) <-> In m (map month_key df)) /\
  list_sum (map snd rows) = length df.
Proof.
  intros df rows H. unfold create_monthly_trend_chart in H.
  destruct df as [|r df]; [discriminate|]. injection H as <-.
  set (keys := group_keys month_eqb month_ltb month_key (r :: df)).
  assert (Hnd : NoDup keys) by apply group_keys_nodup, month_eqb_iff.
  rewrite (map_map_ext _ _ (fun k => k)), map_id by reflexivity.
  rewrite (map_map_ext _ _ (fun k => length (group_rows month_eqb month_key (r :: df) k)))
    by reflexivity.
  split; [exact Hnd|].
  split; [intros m; apply group_keys_in, month_eqb_iff|].
  apply count_groups; [apply month_eqb_iff | exact Hnd |].
  intros x Hx. apply group_keys_cover; [apply month_eqb_iff | exact Hx].
Qed.

Definition three_months : list expense :=
  [mkExpense 1 food 10 d_2024_03_31 None None; mkExpense 2 food 5 (mkYMD 2024 1 2) None None;
   mkExpense 3 food 7 (mkYMD 2024 3 2) None None].

Lemma monthly_trend_months_witness :
  exists rows, create_monthly_trend_chart three_months = Some rows /\
  NoDup (map (fun x => fst (fst x)) rows) /\
  (forall m, In m (map (fun x => fst (fst x)) rows) <-> In m (map month_key three_months)) /\
  list_sum (map snd rows) = length three_months.
Proof.
  eexists. split; [vm_compute; reflexivity|].
  apply monthly_trend_months. vm_compute. reflexivity.
Defined.




Lemma insert_date_asc_perm : forall r l, Permutation (insert_date_asc r l) (r :: l).
Proof.
  intros r. induction l as [|x l IH]; simpl; [reflexivity|].
  destruct (date_leb (e_date x) (e_date r)); [|reflexivity].
  rewrite IH. apply perm_swap.
Qed.

Lemma sort_date_asc_perm : forall l, Permutation (sort_date_asc l) l.
Proof.
  induction l as [|x l IH]; simpl; [reflexivity|].
  rewrite insert_date_asc_perm, IH. reflexivity.
Qed.

Definition date_asc (a b : expense) : Prop := date_leb (e_date a) (e_date b) = true.

Lemma insert_date_asc_sorted : forall r l, Sorted date_asc l -> Sorted date_asc (insert_date_asc r l).
Proof.
  intros r l; induction l as [|x l IH]; simpl; intros Hs; [repeat constructor|].
  inversion Hs as [|? ? Hs' Hhd]; subst.
  destruct (date_leb (e_date x) (e_date r)) eqn:E.
  - constructor; [apply IH, Hs'|].
    destruct l as [|y l]; simpl; [constructor; exact E|].
    destruct (date_leb (e_date y) (e_date r)); constructor; [inversion Hhd; assumption | exact E].
  - constructor; [exact Hs|]. constructor. unfold date_asc. apply date_leb_total, E.
Qed.

Lemma sort_date_asc_sorted : forall l, Sorted date_asc (sort_date_asc l).
Proof.
  induction l as [|r l IH]; simpl; [constructor|]. apply insert_date_asc_sorted, IH.
Qed.

Lemma sorted_map {A B} (R : B -> B -> Prop) (f : A -> B) : forall l,
  Sorted (fun a b => R (f a) (f b)) l -> Sorted R (map f l).
Proof.
  induction l as [|x l IH]; intros Hs; simpl; [constructor|].
  inversion Hs as [|? ? Hs' Hhd]; subst. constructor; [apply IH, Hs'|].
  destruct l as [|y l]; simpl; constructor. inversion Hhd; assumption.
Qed.

Lemma length_cumsum_from : forall l acc, length (cumsum_from acc l) = length l.
Proof. induction l as [|x l IH]; intros acc; simpl; [reflexivity | rewrite IH; reflexivity]. Qed.

Lemma map_fst_combine {A B} : forall (l1 : list A) (l2 : list B),
  length l1 = length l2 -> map fst (combine l1 l2) = l1.
Proof.
  induction l1 as [|x l1 IH]; intros [|y l2] H; simpl in *; try discriminate; [reflexivity|].
  rewrite IH by lia. reflexivity.
Qed.

Lemma map_snd_combine {A B} : forall (l1 : list A) (l2 : list B),
  length l1 = length l2 -> map snd (combine l1 l2) = l2.
Proof.
  induction l1 as [|x l1 IH]; intros [|y l2] H; simpl in *; try discriminate; [reflexivity|].
  rewrite IH by lia. reflexivity.
Qed.

Lemma last_cons_default {A} : forall (ys : list A) y d, last (y :: ys) d = last ys y.
Proof.
  induction ys as [|z ys IH]; intros y d; [reflexivity|].
  change (last (z :: ys) d = last (z :: ys) y). rewrite !IH. reflexivity.
Qed.

Lemma cumsum_from_sorted : forall l acc, (forall x, In x l -> 0 <= x) ->
  Sorted Qle (acc :: cumsum_from acc l).
Proof.
  induction l as [|x l IH]; intros acc Hnn; simpl; [repeat constructor|].
  constructor.
  - apply IH. intros y Hy. apply Hnn. right. exact Hy.
  - constructor. setoid_replace acc with (acc + 0) at 1 by ring.
    apply Qplus_le_compat; [apply Qle_refl | apply Hnn; left; reflexivity].
Qed.

Lemma combine_map_pair {A B C} (f : A -> B) (g : A -> C) : forall l,
  combine (map f l) (map g l) = map (fun x => (f x, g x)) l.
Proof. induction l as [|x l IH]; simpl; [reflexivity | rewrite IH; reflexivity]. Qed.

(** X19. The cumulative spending timeline pairs each expense's date with
    its amount, lists every expense once, in ascending date order, and
    with non-negative amounts the cumulative line never goes down (as for
    rounded sums: adding a non-negative number never rounds below the
    running value). *)
Theorem spending_timeline_order : forall df rows,
  create_spending_timeline df = Some rows ->
  Permutation (map fst rows) (map (fun r => (e_date r, e_amount r)) df) /\
  Sorted (fun a b => date_leb (fst a) (fst b) = true) (map fst rows) /\
  ((forall r, In r df -> 0 <= e_amount r) -> Sorted Qle (map snd rows)).
Proof.
  intros df rows H. unfold create_spending_timeline in H.
  destruct df as [|r0 df0]; [discriminate|]. injection H as <-.
  set (df := r0 :: df0) in *. set (s := sort_date_asc df).
  assert (Hl2 : length (combine (map e_date s) (map e_amount s)) =
                length (cumsum_from 0 (map e_amount s))).
  { rewrite length_combine, length_cumsum_from, !length_map. lia. }
  rewrite map_fst_combine, map_snd_combine by exact Hl2.
  rewrite combine_map_pair.
  pose proof (sort_date_asc_perm df) as P. fold s in P.
  split; [apply Permutation_map, P|].
  split.
  - apply sorted_map with (f := fun r => (e_date r, e_amount r)), (sort_date_asc_sorted df).
  - intros Hnn. apply Sorted_inv with (a := 0), cumsum_from_sorted.
    intros x Hx. apply in_map_iff in Hx as (r & <- & Hr).
    apply Hnn, (Permutation_in _ P), Hr.
Qed.

Lemma spending_timeline_order_witness :
  exists rows, create_spending_timeline three_months = Some rows /\
  Permutation (map fst rows) (map (fun r => (e_date r, e_amount r)) three_months) /\
  Sorted (fun a b => date_leb (fst a) (fst b) = true) (map fst rows) /\
  ((forall r, In r three_months -> 0 <= e_amount r) -> Sorted Qle (map snd rows)).
Proof.
  eexists. split; [vm_compute; reflexivity|].
  apply spending_timeline_order. vm_compute. reflexivity.
Defined.

End Charts.

(** ** The view-all filters *)

(** X20. The "This month" filter of show_view_all compares dates with
    [datetime.now().replace(day=1)], which keeps the time of day: an
    expense dated the first of the month is kept only at midnight
    exactly; later dates are kept and earlier ones dropped. *)
Theorem this_month_filter_first_day : forall now r,
  0 <= dt_us now < us_per_day ->
  (e_date r = mkYMD (year (dt_date now)) (month (dt_date now)) 1 ->
     date_filter_keeps ThisMonth now r = Z.eqb (dt_us now) 0) /\
  (days_from_civil (mkYMD (year (dt_date now)) (month (dt_date now)) 1)
     < days_from_civil (e_date r) -> date_filter_keeps ThisMonth now r = true) /\
  (days_from_civil (e_date r)
     < days_from_civil (mkYMD (year (dt_date now)) (month (dt_date now)) 1) ->
     date_filter_keeps ThisMonth now r = false).
Proof.
  intros now r Hus. unfold date_filter_keeps, instant, date_instant, first_of_month.
  cbn [dt_date dt_us]. unfold us_per_day in *.
  split; [|split].
  - intros ->. destruct (Z.eqb_spec (dt_us now) 0); [apply Z.leb_le | apply Z.leb_gt]; lia.
  - intros H. apply Z.leb_le. lia.
  - intros H. apply Z.leb_gt. lia.
Qed.

Definition first_of_march_row : expense := mkExpense 1 food 100 (mkYMD 2024 3 1) (Some []) (Some 1).

Lemma this_month_filter_first_day_witness :
  0 <= dt_us noon_2024_03_31 < us_per_day /\
  (e_date first_of_march_row =
     mkYMD (year (dt_date noon_2024_03_31)) (month (dt_date noon_2024_03_31)) 1 ->
     date_filter_keeps ThisMonth noon_2024_03_31 first_of_march_row =
     Z.eqb (dt_us noon_2024_03_31) 0) /\
  (days_from_civil (mkYMD (year (dt_date noon_2024_03_31)) (month (dt_date noon_2024_03_31)) 1)
     < days_from_civil (e_date first_of_march_row) ->
     date_filter_keeps ThisMonth noon_2024_03_31 first_of_march_row = true) /\
  (days_from_civil (e_date first_of_march_row)
     < days_from_civil (mkYMD (year (dt_date noon_2024_03_31)) (month (dt_date noon_2024_03_31)) 1) ->
     date_filter_keeps ThisMonth noon_2024_03_31 first_of_march_row = false).
Proof.
  assert (H : 0 <= dt_us noon_2024_03_31 < us_per_day) by (unfold us_per_day; cbn; lia).
  split; [exact H | apply this_month_filter_first_day, H].
Defined.

(** X21. With an empty search box, "Last 30 days" and all categories,
    the "Total Filtered Expenses" of show_view_all is the dashboard's
    "Last 30 Days" figure for the same reference time: both sum the same
    rows of the listing in the same order. *)
Theorem view_last_30_total_is_summary : forall d u now s,
  get_expense_summary d u now = Some s ->
  sum_amount (view_all_filter Last30Days None now (get_current_user_expenses d u)) =
  last_30_days s.
Proof.
  intros d u now s H.
  destruct (summary_fields _ _ _ _ H) as (df & Edf & _ & ->). rewrite Edf. reflexivity.
Qed.

Lemma view_last_30_total_is_summary_witness :
  exists s, get_expense_summary two_owner_db (Some 1) noon_2024_03_31 = Some s /\
  sum_amount (view_all_filter Last30Days None noon_2024_03_31
                (get_current_user_expenses two_owner_db (Some 1))) = last_30_days s.
Proof.
  eexists. split; [reflexivity|].
  apply (view_last_30_total_is_summary two_owner_db (Some 1) noon_2024_03_31). reflexivity.
Defined.

(** X22. "This month" in show_view_all and "This Month" on the dashboard
    can disagree: at 2024-03-31 12:00, an expense of 100 dated 2024-03-01
    counts in the dashboard's [monthly_expenses] but is filtered out of
    the view, whose total is 0. *)
Example this_month_view_differs_from_summary :
  exists s, get_expense_summary boundary_db (Some 1) noon_2024_03_31 = Some s /\
  monthly_expenses s == 100 /\
  sum_amount (view_all_filter ThisMonth None noon_2024_03_31
                (get_current_user_expenses boundary_db (Some 1))) == 0.
Proof. eexists. split; [reflexivity|]. vm_compute. split; reflexivity. Qed.

(** ** Invariants of the forms *)

Definition rows_valid (d : db) : Prop :=
  match db_expenses d with
  | None => True
  | Some t => Forall (fun r => (0 < e_amount r)%Q /\ e_category r <> []) (et_rows t)
  end.

Definition users_valid (d : db) : Prop :=
  match db_users d with
  | None => True
  | Some ut =>
      0 <= ut_seq ut /\ NoDup (map u_username (ut_rows ut)) /\
      Forall (fun u => u_username u <> [] /\
                exists p, (6 <= length p)%nat /\ hash_password p = Ok (u_password_hash u))
             (ut_rows ut)
  end.

Lemma set_null_owner_to_1_fields : forall r,
  e_amount (set_null_owner_to_1 r) = e_amount r /\ e_category (set_null_owner_to_1 r) = e_category r.
Proof. intros r. unfold set_null_owner_to_1. destruct (e_user_id r); split; reflexivity. Qed.

Lemma init_db_rows_valid : forall d, rows_valid d -> rows_valid (init_db d).
Proof.
  intros d H. unfold rows_valid, init_db in *.
  destruct (db_expenses d) as [t|]; [destruct (et_has_user_id t)|];
    cbn [db_expenses et_rows fresh_expenses]; rewrite Forall_forall; intros r Hr;
    apply in_map_iff in Hr as (r1 & <- & Hr1);
    destruct (set_null_owner_to_1_fields r1) as [-> ->].
  - rewrite Forall_forall in H. apply H, Hr1.
  - apply in_map_iff in Hr1 as (r2 & <- & Hr2). cbn [e_amount e_category].
    rewrite Forall_forall in H. apply H, Hr2.
  - contradiction Hr1.
Qed.

Lemma init_db_users : forall d,
  db_users (init_db d) = Some (match db_users d with None => mkUT [] 0 | Some u => u end).
Proof. reflexivity. Qed.

Lemma init_db_users_valid : forall d, users_valid d -> users_valid (init_db d).
Proof.
  intros d H. unfold users_valid in *. rewrite init_db_users.
  destruct (db_users d) as [ut|]; [exact H|].
  cbn [ut_seq ut_rows map]. split; [lia|]. split; constructor.
Qed.

Lemma next_id_gt : forall seq ids, seq < next_id seq ids.
Proof. intros seq ids. unfold next_id. pose proof (fold_max_ge ids seq). lia. Qed.

Lemma create_user_ok_inv : forall d n p e b d',
  create_user d n p e = Ok (b, d') ->
  exists ut h, hash_password p = Ok h /\ db_users d = Some ut /\ bind_str n = Ok tt /\
    ((b = false /\ d' = d) \/
     (b = true /\ find_user (ut_rows ut) n = None /\
      d' = mkDB (db_expenses d)
             (Some (mkUT (ut_rows ut ++ [mkUser (next_id (ut_seq ut) (map u_id (ut_rows ut)))
                                                n h e])
                         (next_id (ut_seq ut) (map u_id (ut_rows ut))))))).
Proof.
  unfold create_user. intros d n p e b d' H.
  destruct (hash_password p) as [h|]; [|discriminate]. cbn [rbind] in H.
  destruct (db_users d) as [ut|]; [|discriminate].
  destruct (bind_str n) as [[]|] eqn:Hn; [|discriminate]. cbn [rbind] in H.
  destruct (bind_str h); [|discriminate]. cbn [rbind] in H.
  destruct (bind_opt_str e); [|discriminate]. cbn [rbind] in H.
  exists ut, h. split; [reflexivity|]. split; [reflexivity|]. split; [reflexivity|].
  destruct (find_user (ut_rows ut) n) eqn:Hf; injection H as <- <-; [left | right];
    repeat split; assumption.
Qed.

Lemma find_user_none_not_in : forall rows n,
  find_user rows n = None -> ~ In n (map u_username rows).
Proof.
  intros rows n Hf Hin. apply in_map_iff in Hin as (u & Hun & Hin).
  unfold find_user in Hf. pose proof (find_none _ _ Hf u Hin) as Hne.
  cbv beta in Hne. rewrite Hun, pystr_eqb_refl in Hne. discriminate.
Qed.

Lemma nonempty_true : forall s, nonempty s = true -> s <> [].
Proof. intros [|c s] H; [discriminate | intros E; discriminate E]. Qed.

Lemma register_submit_inv : forall d n e p c m d',
  show_register_submit d n e p c = Ok (m, d') ->
  d' = d \/
  (m = AccountCreated /\ n <> [] /\ (6 <= length p)%nat /\ create_user d n p (Some e) = Ok (true, d')).
Proof.
  unfold show_register_submit. intros d n e p c m d' H.
  destruct (nonempty n) eqn:Hn; [|injection H as _ <-; left; reflexivity].
  destruct (nonempty p); [|injection H as _ <-; left; reflexivity]. cbn [andb] in H.
  destruct (pystr_eqb p c); [|injection H as _ <-; left; reflexivity].
  destruct (Nat.leb 6 (length p)) eqn:Hl; [|injection H as _ <-; left; reflexivity].
  destruct (create_user d n p (Some e)) as [[b d'']|] eqn:Hc; [|discriminate].
  cbn [rbind fst snd] in H. injection H as <- <-.
  destruct b; [right | left].
  - split; [reflexivity|]. split; [apply nonempty_true, Hn|].
    split; [apply Nat.leb_le, Hl | reflexivity].
  - destruct (create_user_ok_inv _ _ _ _ _ _ Hc) as (ut & h & _ & _ & _ & [[_ ->]|[Hb _]]);
      [reflexivity | discriminate].
Qed.

Lemma register_submit_valid : forall d n e p c m d',
  show_register_submit d n e p c = Ok (m, d') ->
  rows_valid d -> users_valid d -> rows_valid d' /\ users_valid d'.
Proof.
  intros d n e p c m d' H Hr Hu.
  destruct (register_submit_inv _ _ _ _ _ _ _ H) as [->|(_ & Hn & Hl & Hc)]; [auto|].
  destruct (create_user_ok_inv _ _ _ _ _ _ Hc) as (ut & h & Hh & Hut & _ & [[Hb _]|(_ & Hf & ->)]);
    [discriminate|].
  unfold rows_valid, users_valid in *. cbn [db_expenses db_users ut_seq ut_rows].
  split; [exact Hr|]. rewrite Hut in Hu. destruct Hu as (Hs & Hnd & Hall).
  split; [pose proof (next_id_gt (ut_seq ut) (map u_id (ut_rows ut))); lia|].
  split.
  - rewrite map_app. cbn [map u_username].
    apply (Permutation_NoDup (Permutation_cons_append _ _)).
    constructor; [apply find_user_none_not_in, Hf | exact Hnd].
  - apply Forall_app. split; [exact Hall|]. repeat constructor; [exact Hn|].
    exists p. split; [exact Hl | exact Hh].
Qed.

Lemma add_submit_valid : forall d c a dt ds u,
  rows_valid d -> users_valid d ->
  rows_valid (snd (show_add_expense_submit d c a dt ds u)) /\
  users_valid (snd (show_add_expense_submit d c a dt ds u)).
Proof.
  intros d c a dt ds u Hr Hu. unfold show_add_expense_submit.
  destruct (negb (nonempty (strip c))) eqn:Hc; [auto|].
  destruct (Qle_bool a 0) eqn:Ha; [auto|].
  destruct (add_expense d (PyStr c) a dt (PyStr ds) u) as [d'|] eqn:Hadd; [|auto].
  cbn [snd]. destruct (add_expense_ok_inv _ _ _ _ _ _ _ Hadd)
    as (t & cs & dss & Hcs & _ & Ht & _ & ->).
  apply expenses_with_user_id_ok in Ht as [Ht _].
  cbn [py_strip] in Hcs. injection Hcs as <-.
  unfold rows_valid, users_valid in *. cbn [db_expenses db_users et_rows].
  split; [|exact Hu]. rewrite Ht in Hr. apply Forall_app. split; [exact Hr|].
  constructor; [|constructor]. cbn [e_amount e_category]. split.
  - apply Qnot_le_lt. intros Hle. apply Qle_bool_iff in Hle. congruence.
  - apply nonempty_true. destruct (nonempty (strip c)); [reflexivity | discriminate].
Qed.

Lemma delete_valid : forall d i u b d',
  delete_expense d i u = Ok (b, d') -> rows_valid d -> users_valid d ->
  rows_valid d' /\ users_valid d'.
Proof.
  unfold delete_expense. intros d i u b d' H Hr Hu.
  destruct (expenses_with_user_id d) as [t|] eqn:Ht; [|discriminate]. cbn [rbind] in H.
  injection H as _ <-. apply expenses_with_user_id_ok in Ht as [Ht _].
  unfold rows_valid, users_valid in *. cbn [db_expenses db_users et_rows].
  split; [|exact Hu]. rewrite Ht in Hr. rewrite Forall_forall in *.
  intros r Hin. apply filter_In in Hin as [Hin _]. apply Hr, Hin.
Qed.

Lemma run_ui_op_valid : forall d o, rows_valid d -> users_valid d ->
  rows_valid (run_ui_op d o) /\ users_valid (run_ui_op d o).
Proof.
  intros d0 o Hr0 Hu0. unfold run_ui_op.
  pose proof (init_db_rows_valid d0 Hr0) as Hr. pose proof (init_db_users_valid d0 Hu0) as Hu.
  set (d := init_db d0) in *. clearbody d.
  destruct o as [n e p c | c a dt ds u | i u].
  - destruct (show_register_submit d n e p c) as [[m d']|] eqn:H; [|auto].
    apply (register_submit_valid _ _ _ _ _ _ _ H Hr Hu).
  - apply add_submit_valid; assumption.
  - destruct (delete_expense d i u) as [[b d']|] eqn:H; [|auto].
    apply (delete_valid _ _ _ _ _ H Hr Hu).
Qed.

Lemma run_ui_valid : forall ops d, rows_valid d -> users_valid d ->
  rows_valid (run_ui d ops) /\ users_valid (run_ui d ops).
Proof.
  induction ops as [|o ops IH]; intros d Hr Hu; [auto|].
  unfold run_ui. cbn [fold_left].
  destruct (run_ui_op_valid d o Hr Hu). apply IH; assumption.
Qed.

Lemma empty_db_valid : rows_valid empty_db /\ users_valid empty_db.
Proof. split; exact I. Qed.

(** X23. Every expense row stored through the add-expense form, from an
    empty database, has a positive amount and a non-empty category. *)
Theorem ui_rows_positive : forall ops t r,
  db_expenses (run_ui empty_db ops) = Some t -> In r (et_rows t) ->
  (0 < e_amount r)%Q /\ e_category r <> [].
Proof.
  intros ops t r Ht Hin.
  destruct (run_ui_valid ops empty_db I I) as [Hr _].
  unfold rows_valid in Hr. rewrite Ht, Forall_forall in Hr. apply Hr, Hin.
Qed.

Definition ui_script : list ui_op :=
  [UiRegister alice [] secret1 secret1;
   UiAddExpense (ascii_pystr " Food ") 12 d_2024_03_31 [] (Some 1);
   UiAddExpense food 0 d_2024_03_31 [] (Some 1);
   UiAddExpense (ascii_pystr "  ") 5 d_2024_03_31 [] (Some 1)].

Lemma ui_rows_positive_witness :
  exists t r, db_expenses (run_ui empty_db ui_script) = Some t /\ In r (et_rows t) /\
  (0 < e_amount r)%Q /\ e_category r <> [].
Proof.
  eexists. eexists.
  assert (Ht : db_expenses (run_ui empty_db ui_script) =
               Some (mkET true true [mkExpense 1 food 12 d_2024_03_31 (Some []) (Some 1)] 1))
    by (vm_compute; reflexivity).
  split; [exact Ht|]. split; [left; reflexivity|].
  apply (ui_rows_positive ui_script _ _ Ht). left. reflexivity.
Defined.

(** X24. Through the registration form, from an empty database, every
    stored user has a non-empty and unique username, and a stored hash
    that is the hash of a password of at least 6 characters. *)
Theorem ui_users_valid : forall ops ut,
  db_users (run_ui empty_db ops) = Some ut ->
  NoDup (map u_username (ut_rows ut)) /\
  Forall (fun u => u_username u <> [] /\
            exists p, (6 <= length p)%nat /\ hash_password p = Ok (u_password_hash u))
         (ut_rows ut).
Proof.
  intros ops ut Hut.
  destruct (run_ui_valid ops empty_db I I) as [_ Hu].
  unfold users_valid in Hu. rewrite Hut in Hu. destruct Hu as (_ & Hnd & Hall). auto.
Qed.

Definition ui_register_script : list ui_op :=
  [UiRegister alice [] secret1 secret1; UiRegister alice [] secret1 secret1;
   UiRegister (ascii_pystr "bob") [] (ascii_pystr "abc") (ascii_pystr "abc")].

Lemma ui_users_valid_witness :
  exists ut, db_users (run_ui empty_db ui_register_script) = Some ut /\
  NoDup (map u_username (ut_rows ut)) /\
  Forall (fun u => u_username u <> [] /\
            exists p, (6 <= length p)%nat /\ hash_password p = Ok (u_password_hash u))
         (ut_rows ut).
Proof.
  eexists.
  assert (Hut : db_users (run_ui empty_db ui_register_script) = Some (mkUT [mkUser 1 alice secret1_hash (Some [])] 1))
    by (vm_compute; reflexivity).
  split; [exact Hut|]. apply (ui_users_valid ui_register_script _ Hut).
Defined.

(** X25. After the registration form reports "Account created", the
    login form with the same username and password succeeds, with an id
    that is positive, so that [if user_id:] accepts it. *)
Theorem register_form_then_login_form : forall ops n e p d',
  show_register_submit (init_db (run_ui empty_db ops)) n e p p = Ok (AccountCreated, d') ->
  exists i, 0 < i /\ show_login_submit (init_db d') n p = Ok (LoginSuccess i).
Proof.
  intros ops n e p d' H.
  destruct (run_ui_valid ops empty_db I I) as [_ Hu].
  apply init_db_users_valid in Hu.
  set (d := init_db (run_ui empty_db ops)) in *. clearbody d.
  assert (Hreg : n <> [] /\ p <> [] /\ create_user d n p (Some e) = Ok (true, d')).
  { unfold show_register_submit in H.
    destruct (nonempty n) eqn:Hn; [|discriminate].
    destruct (nonempty p) eqn:Hp; [|discriminate]. cbn [andb] in H.
    destruct (pystr_eqb p p); [|discriminate].
    destruct (Nat.leb 6 (length p)); [|discriminate].
    destruct (create_user d n p (Some e)) as [[b d'']|] eqn:Hc; [|discriminate].
    cbn [rbind fst snd] in H. destruct b; [|discriminate]. injection H as <-.
    split; [apply nonempty_true, Hn|]. split; [apply nonempty_true, Hp | reflexivity]. }
  destruct Hreg as (Hn & Hp & Hc).
  destruct (create_user_ok_inv _ _ _ _ _ _ Hc)
    as (ut & h & Hh & Hut & Hbn & [[Hb _]|(_ & Hf & ->)]); [discriminate|].
  unfold users_valid in Hu. rewrite Hut in Hu. destruct Hu as (Hs & _).
  set (id := next_id (ut_seq ut) (map u_id (ut_rows ut))).
  assert (Hid : 0 < id) by (pose proof (next_id_gt (ut_seq ut) (map u_id (ut_rows ut))); lia).
  exists id. split; [exact Hid|].
  unfold show_login_submit.
  destruct n as [|cn n]; [contradiction|]. destruct p as [|cp p]; [contradiction|].
  cbn [nonempty andb].
  unfold authenticate_user. rewrite init_db_users. cbn [db_users ut_rows].
  rewrite Hbn. cbn [rbind].
  unfold find_user. rewrite find_app. unfold find_user in Hf. rewrite Hf.
  cbn [find u_username u_password_hash u_id]. rewrite pystr_eqb_refl.
  unfold verify_password. rewrite Hh. cbn [rbind]. rewrite pystr_eqb_refl. cbn [rbind u_id].
  destruct (Z.eqb_spec id 0); [lia | reflexivity].
Qed.

Lemma register_form_then_login_form_witness :
  exists d' i, show_register_submit (init_db (run_ui empty_db [])) alice [] secret1 secret1 =
                 Ok (AccountCreated, d') /\
    0 < i /\ show_login_submit (init_db d') alice secret1 = Ok (LoginSuccess i).
Proof.
  assert (H : show_register_submit (init_db (run_ui empty_db [])) alice [] secret1 secret1 =
              Ok (AccountCreated, mkDB (Some fresh_expenses)
                                       (Some (mkUT [mkUser 1 alice secret1_hash (Some [])] 1))))
    by (vm_compute; reflexivity).
  destruct (register_form_then_login_form [] alice [] secret1 _ H) as (i & Hi & Hl).
  exists (mkDB (Some fresh_expenses) (Some (mkUT [mkUser 1 alice secret1_hash (Some [])] 1))), i.
  split; [exact H|]. split; [exact Hi | exact Hl].
Defined.
